(** * StandardRunService (libs/services/designer-client-services/src/lib/standard/run.ts)

    A shallow embedding of the run-history REST client and the proofs of the
    properties its specification states.

    - JavaScript values are the inductive [JsVal]; an object is a finite map
      from property names to values (stdpp's [gmap]).
    - The injected HTTP transport is a record of three verbs acting on an
      abstract world [W]; every call is appended to a request log, so that
      "performs no transport call" is the statement that world and log are
      unchanged.
    - [async] methods and synchronous throws are both computations in the
      state-and-exception monad [Eff]: a rejected promise and a thrown error
      are the outcome [Raised]. *)

From Stdlib Require Import Ascii String.
From stdpp Require Import gmap strings list fin_maps pretty.

(* ===================================================================== *)
(** ** JavaScript values *)
(* ===================================================================== *)

Module Js.

(** Numbers are opaque to the service apart from their truthiness; the model
    keeps the integers. *)
#[warnings="-register-all"]
Inductive JsVal : Type :=
  | JUndefined
  | JNull
  | JBool (b : bool)
  | JNum (n : Z)
  | JStr (s : string)
  | JArr (items : list JsVal)
  | JObj (props : gmap string JsVal).

(** [!!v] *)
Definition truthy (v : JsVal) : bool :=
  match v with
  | JUndefined | JNull => false
  | JBool b => b
  | JNum n => negb (n =? 0)%Z
  | JStr s => negb (String.eqb s "")
  | JArr _ | JObj _ => true
  end.

(** Truthiness of a [string] and of a [string | undefined]. *)
Definition truthy_string (s : string) : bool := negb (String.eqb s "").

Definition truthy_opt (o : option string) : bool :=
  match o with
  | Some s => truthy_string s
  | None => false
  end.

(** Modelled from the spec: [isString] of @microsoft/utils-logic-apps, which
    is imported by run.ts and tells whether "the payload is a single
    string". *)
Definition isString (v : JsVal) : bool :=
  match v with
  | JStr _ => true
  | _ => false
  end.

(** The own enumerable string-keyed properties of a value: the properties of
    an object, the elements of an array under their decimal indices. The
    service never enumerates a primitive other than through [Object.keys] of
    a number or boolean, which is empty, and it wraps a string before
    enumerating it. *)
Definition own_props (v : JsVal) : gmap string JsVal :=
  match v with
  | JObj props => props
  | JArr items => list_to_map (imap (λ i x, (pretty i, x)) items)
  | _ => ∅
  end.

(** [Object.keys(v)]. The order of enumeration is the map's; every use below
    builds a map from the keys, which does not depend on the order. *)
Definition Object_keys (v : JsVal) : list string := (map_to_list (own_props v)).*1.

(** [v[k]] for a value [v] that is neither [null] nor [undefined] and a
    property name [k] that is not inherited. *)
Definition js_get (v : JsVal) (k : string) : JsVal :=
  default JUndefined (own_props v !! k).

(** [a ?? b] *)
Definition nullish_or (a b : JsVal) : JsVal :=
  match a with
  | JUndefined | JNull => b
  | _ => a
  end.

(** A [string | undefined] inside a template literal. *)
Definition tpl_string (o : option string) : string :=
  match o with
  | Some s => s
  | None => "undefined"
  end.

(** A [number | undefined] (integer valued) inside a template literal. An
    integer of magnitude below 2^53 is written in decimal. A larger one is
    first a double and Number::toString may round it or use the exponent form
    (1e+21): its text is the engine's, [number_text]. *)
Definition tpl_number (number_text : Z → string) (o : option Z) : string :=
  match o with
  | Some n => if (Z.abs n <? 2 ^ 53)%Z then pretty n else number_text n
  | None => "undefined"
  end.

(** [String.prototype.toLowerCase] on the ASCII letters. A character outside
    ASCII never lower-cases to one of the letters of get, post and put, so the
    comparison made by [getHttpRequestByMethod] is decided by this
    function. *)
Definition toLowerCase_ascii (c : ascii) : ascii :=
  let n := nat_of_ascii c in
  if (65 <=? n)%nat && (n <=? 90)%nat then ascii_of_nat (n + 32) else c.

Fixpoint toLowerCase (s : string) : string :=
  match s with
  | EmptyString => EmptyString
  | String c rest => String (toLowerCase_ascii c) (toLowerCase rest)
  end.

(** [haystack.includes(needle)] *)
Fixpoint includes_from (needle haystack : string) : bool :=
  String.prefix needle haystack ||
  match haystack with
  | EmptyString => false
  | String _ rest => includes_from needle rest
  end.

End Js.
Export Js.

(* ===================================================================== *)
(** ** Errors, the transport and the effect monad *)
(* ===================================================================== *)

(** The error classes the service throws or catches. [TransportFailure] names
    whatever class the injected transport rejects with. *)
Inductive ErrorName :=
  | Error
  | ArgumentException
  | UnsupportedException
  | TypeError
  | TransportFailure.

(** A thrown value as the [catch] clauses read it: [e.message], [e.status]
    and [e?.data?.error?.message]. The model covers what is thrown or rejected
    as an error object with a string message, an integer or missing status and
    a string or missing server message; a transport that rejects with [null]
    or [undefined], on which [e.message] itself throws, is outside it. *)
Record JsError := {
  err_name : ErrorName;
  err_message : string;
  err_status : option Z;
  err_data_error_message : option string;
}.

(** [new C(message)] for the classes the service constructs: no status, no
    response body. *)
Definition new_error (name : ErrorName) (message : string) : JsError :=
  {| err_name := name; err_message := message;
     err_status := None; err_data_error_message := None |}.

Inductive Outcome (A : Type) :=
  | Returned (a : A)
  | Raised (e : JsError).
Arguments Returned {A} a.
Arguments Raised {A} e.

Inductive Verb := GET | POST | PUT.

(** The [headers] of a request: a Fetch [Headers] object built from an
    initialiser, or a plain record. *)
Inductive HeadersArg :=
  | HeadersObject (init : list (string * string))
  | HeadersRecord (fields : list (string * string)).

Module HttpRequestOptions.
Record t := {
  uri : string;
  headers : option HeadersArg;
  noAuth : option bool;
}.
End HttpRequestOptions.

Record Call := { call_verb : Verb; call_options : HttpRequestOptions.t }.

(** [IHttpClient]: each verb answers a request in a state of the world with a
    parsed body or a rejection, and a new state of the world. *)
Module IHttpClient.
Record t (W : Type) := {
  get : HttpRequestOptions.t → W → Outcome JsVal * W;
  post : HttpRequestOptions.t → W → Outcome JsVal * W;
  put : HttpRequestOptions.t → W → Outcome JsVal * W;
}.
Arguments get {W} _ _ _.
Arguments post {W} _ _ _.
Arguments put {W} _ _ _.
End IHttpClient.

Definition verb_of {W} (v : Verb) (c : IHttpClient.t W) :
    HttpRequestOptions.t → W → Outcome JsVal * W :=
  match v with
  | GET => IHttpClient.get c
  | POST => IHttpClient.post c
  | PUT => IHttpClient.put c
  end.

(** The state threaded through the service: the world behind the transport
    and the log of the calls made on the transport, oldest first. *)
Definition St (W : Type) : Type := W * list Call.

Definition Eff (W A : Type) : Type := St W → Outcome A * St W.

Definition eff_ret {W A} (a : A) : Eff W A := λ st, (Returned a, st).

Definition eff_bind {W A B} (m : Eff W A) (k : A → Eff W B) : Eff W B :=
  λ st, match m st with
        | (Returned a, st') => k a st'
        | (Raised e, st') => (Raised e, st')
        end.

(** [throw e] *)
Definition throw {W A} (e : JsError) : Eff W A := λ st, (Raised e, st).

(** [try { body } catch (e) { handler e }] *)
Definition try_catch {W A} (body : Eff W A) (handler : JsError → Eff W A) : Eff W A :=
  λ st, match body st with
        | (Returned a, st') => (Returned a, st')
        | (Raised e, st') => handler e st'
        end.

(** [await httpClient.verb(options)] *)
Definition request {W} (c : IHttpClient.t W) (v : Verb) (options : HttpRequestOptions.t) :
    Eff W JsVal :=
  λ '(w, log), let '(r, w') := verb_of v c options w in
               (r, (w', log ++ [{| call_verb := v; call_options := options |}])).

#[global] Instance eff_mret {W} : MRet (Eff W) := λ A, eff_ret.
#[global] Instance eff_mbind {W} : MBind (Eff W) := λ A B k m, eff_bind m k.

(** What the JavaScript platform decides and run.ts does not: which strings
    the [Headers] constructor accepts as a header value (the Fetch standard
    refuses, among others, a value with a NUL, CR or LF inside), the message
    of the TypeError it throws otherwise, the message of the TypeError raised
    when a destructuring pattern is applied to [null] or [undefined], and the
    text of a number outside the safe integers. *)
Record Platform := {
  acceptable_header_value : string → bool;
  headers_message : string → string;
  destructuring_message : JsVal → string;
  number_text : Z → string;
}.

(* ===================================================================== *)
(** ** Data model of the service *)
(* ===================================================================== *)

Module ContentLink.
Record t := { uri : option string }.
End ContentLink.

Module ActionMetadata.
Record t := {
  inputsLink : option ContentLink.t;
  outputsLink : option ContentLink.t;
}.
End ActionMetadata.

Module Action.
Record t := { nodeId : string; runId : option string }.
End Action.

(** Modelled from the spec: [CallbackInfo] of ../workflow, which run.ts only
    imports as a type. A descriptor "either carries an explicit HTTP method +
    relative path, or is treated as a plain callback URL requiring POST". *)
Inductive CallbackInfo :=
  | CallbackInfoWithRelativePath (method : string) (relativePath : string)
  | CallbackInfoWithValue (value : string).

(** Modelled from the spec: the type guard [isCallbackInfoWithRelativePath]
    of @microsoft/utils-logic-apps, and the [method] it gives access to. *)
Definition isCallbackInfoWithRelativePath (callbackInfo : CallbackInfo) : option string :=
  match callbackInfo with
  | CallbackInfoWithRelativePath method _ => Some method
  | CallbackInfoWithValue _ => None
  end.

(** Modelled from the spec: the constant [HTTP_METHODS.POST] of
    @microsoft/utils-logic-apps. *)
Definition HTTP_METHODS_POST : string := "POST".

Module RunServiceOptions.
Record t (W : Type) := {
  apiVersion : string;
  baseUrl : string;
  httpClient : IHttpClient.t W;
  accessToken : option string;
  workflowName : string;
  isDev : option bool;
}.
Arguments apiVersion {W} _.
Arguments baseUrl {W} _.
Arguments httpClient {W} _.
Arguments accessToken {W} _.
Arguments workflowName {W} _.
Arguments isDev {W} _.
End RunServiceOptions.

Record StandardRunService (W : Type) := {
  options : RunServiceOptions.t W;
  _isDev : bool;
}.
Arguments options {W} _.
Arguments _isDev {W} _.

(* ===================================================================== *)
(** ** The methods of StandardRunService *)
(* ===================================================================== *)

Section Service.

Context {W : Type}.

Variable platform : Platform.

(** The fixture tables [inputsResponse] and [outputsResponse] of
    ../__test__/__mocks__/monitoringInputsOutputsResponse, keyed by node id. *)
Variable inputsResponse : gmap string JsVal.
Variable outputsResponse : gmap string JsVal.

Import RunServiceOptions.

(** run.ts, lines 26-34. The constructor is synchronous: it is a function,
    not a computation. *)
Definition constructor (options : RunServiceOptions.t W) : Outcome (StandardRunService W) :=
  if negb (truthy_string (baseUrl options)) then
    Raised (new_error ArgumentException "baseUrl required")
  else if negb (truthy_string (apiVersion options)) then
    Raised (new_error ArgumentException "apiVersion required")
  else
    Returned {| options := options; _isDev := default false (isDev options) |}.

(** run.ts, lines 36-54. *)
Definition getContent (this : StandardRunService W) (contentLink : ContentLink.t) : Eff W JsVal :=
  match ContentLink.uri contentLink with
  | Some uri =>
      if negb (truthy_string uri) then throw (new_error Error "")
      else
        try_catch
          (response ← request (httpClient (options this)) GET
             {| HttpRequestOptions.uri := uri;
                HttpRequestOptions.noAuth := Some true;
                HttpRequestOptions.headers :=
                  Some (HeadersRecord [("Access-Control-Allow-Origin", "*")]) |};
           mret response)
          (λ e, throw (new_error Error (err_message e)))
  | None => throw (new_error Error "")
  end.

(** run.ts, lines 56-65. [new Headers] throws a TypeError for a value it
    does not accept. *)
Definition getAccessTokenHeaders (this : StandardRunService W) : Eff W (option HeadersArg) :=
  match accessToken (options this) with
  | Some token =>
      if negb (truthy_string token) then mret None
      else if acceptable_header_value platform token
           then mret (Some (HeadersObject [("Authorization", token)]))
           else throw (new_error TypeError (headers_message platform token))
  | None => mret None
  end.

(** [const { nextLink, value: runs } = response; return { nextLink, runs }] *)
Definition destructure_ArmResources (response : JsVal) : Eff W JsVal :=
  match response with
  | JUndefined | JNull =>
      throw (new_error TypeError (destructuring_message platform response))
  | _ =>
      let nextLink := js_get response "nextLink" in
      let runs := js_get response "value" in
      mret (JObj {[ "nextLink" := nextLink; "runs" := runs ]})
  end.

(** run.ts, lines 67-82. *)
Definition getMoreRuns (this : StandardRunService W) (continuationToken : string) : Eff W JsVal :=
  headers ← getAccessTokenHeaders this;
  try_catch
    (response ← request (httpClient (options this)) GET
       {| HttpRequestOptions.uri := continuationToken;
          HttpRequestOptions.headers := headers;
          HttpRequestOptions.noAuth := None |};
     destructure_ArmResources response)
    (λ e, throw (new_error Error (err_message e))).

(** run.ts, lines 89-102. *)
Definition getRun (this : StandardRunService W) (runId : string) : Eff W JsVal :=
  let o := options this in
  let uri := baseUrl o +:+ "/workflows/" +:+ workflowName o +:+ "/runs/" +:+ runId
             +:+ "?api-version=" +:+ apiVersion o
             +:+ "&$expand=properties/actions,workflow/properties" in
  try_catch
    (response ← request (httpClient o) GET
       {| HttpRequestOptions.uri := uri;
          HttpRequestOptions.headers := None;
          HttpRequestOptions.noAuth := None |};
     mret response)
    (λ e, throw (new_error Error (err_message e))).

(** run.ts, lines 108-124. *)
Definition getRuns (this : StandardRunService W) : Eff W JsVal :=
  let o := options this in
  headers ← getAccessTokenHeaders this;
  let uri := baseUrl o +:+ "/workflows/" +:+ workflowName o
             +:+ "/runs?api-version=" +:+ apiVersion o in
  try_catch
    (response ← request (httpClient o) GET
       {| HttpRequestOptions.uri := uri;
          HttpRequestOptions.headers := headers;
          HttpRequestOptions.noAuth := None |};
     destructure_ArmResources response)
    (λ e, throw (new_error Error (err_message e))).

(** run.ts, lines 145-146: the request URI of [getScopeRepetitions]. *)
Definition scopeRepetitionsFilter (status : option string) : string :=
  if truthy_opt status then "&$filter=status eq '" +:+ tpl_string status +:+ "'" else "".

Definition scopeRepetitionsUri (o : RunServiceOptions.t W) (action : Action.t)
    (status : option string) : string :=
  baseUrl o +:+ tpl_string (Action.runId action) +:+ "/actions/" +:+ Action.nodeId action
  +:+ "/scopeRepetitions?api-version=" +:+ apiVersion o +:+ scopeRepetitionsFilter status.

(** run.ts, lines 132-158. *)
Definition getScopeRepetitions (this : StandardRunService W) (action : Action.t)
    (status : option string) : Eff W JsVal :=
  if _isDev this then mret (JObj {[ "value" := JArr [] ]})
  else
    let o := options this in
    headers ← getAccessTokenHeaders this;
    let uri := scopeRepetitionsUri o action status in
    try_catch
      (response ← request (httpClient o) GET
         {| HttpRequestOptions.uri := uri;
            HttpRequestOptions.headers := headers;
            HttpRequestOptions.noAuth := None |};
       mret response)
      (λ e, throw (new_error Error (err_message e))).

(** run.ts, lines 166-182. *)
Definition getRepetition (this : StandardRunService W) (action : Action.t)
    (repetitionId : string) : Eff W JsVal :=
  let o := options this in
  headers ← getAccessTokenHeaders this;
  let uri := baseUrl o +:+ tpl_string (Action.runId action) +:+ "/actions/"
             +:+ Action.nodeId action +:+ "/repetitions/" +:+ repetitionId
             +:+ "?api-version=" +:+ apiVersion o in
  try_catch
    (response ← request (httpClient o) GET
       {| HttpRequestOptions.uri := uri;
          HttpRequestOptions.headers := headers;
          HttpRequestOptions.noAuth := None |};
     mret response)
    (λ e, throw (new_error Error (err_message e))).

(** run.ts, lines 254-265. The message of the exception carries [method] as
    it was given. *)
Definition getHttpRequestByMethod (httpClient : IHttpClient.t W) (method : string)
    (options : HttpRequestOptions.t) : Eff W JsVal :=
  let lowered := toLowerCase method in
  if String.eqb lowered "get" then request httpClient GET options
  else if String.eqb lowered "post" then request httpClient POST options
  else if String.eqb lowered "put" then request httpClient PUT options
  else throw (new_error UnsupportedException
                ("Unsupported call connector method - '" +:+ method +:+ "'")).

(** run.ts, lines 267-269. *)
Definition getCallbackUrl (_callbackInfo : CallbackInfo) : Eff W (option string) :=
  throw (new_error Error "Function not implemented.").

(** run.ts, line 190: the method of a trigger call. *)
Definition callbackMethod (callbackInfo : CallbackInfo) : string :=
  match isCallbackInfoWithRelativePath callbackInfo with
  | Some method => method
  | None => HTTP_METHODS_POST
  end.

(** run.ts, lines 188-201, with the helper that resolves the URI as a
    parameter; [runTrigger] below is the method of the source. *)
Definition runTrigger_with (resolve : CallbackInfo → Eff W (option string))
    (this : StandardRunService W) (callbackInfo : CallbackInfo) : Eff W unit :=
  let method := callbackMethod callbackInfo in
  uri ← resolve callbackInfo;
  match uri with
  | Some uri =>
      if negb (truthy_string uri) then throw (new_error Error "")
      else
        try_catch
          (_ ← getHttpRequestByMethod (httpClient (options this)) method
                 {| HttpRequestOptions.uri := uri;
                    HttpRequestOptions.headers := None;
                    HttpRequestOptions.noAuth := None |};
           mret ())
          (λ e, throw (new_error Error
                         (tpl_number (number_text platform) (err_status e) +:+ " "
                          +:+ tpl_string (err_data_error_message e))))
  | None => throw (new_error Error "")
  end.

Definition runTrigger (this : StandardRunService W) (callbackInfo : CallbackInfo) : Eff W unit :=
  runTrigger_with getCallbackUrl this callbackInfo.

(** The entry [{ displayName: current, value: dictionaryResponse[current] }]
    of run.ts, line 243. *)
Definition boundParameter (name : string) (value : JsVal) : JsVal :=
  JObj {[ "displayName" := JStr name; "value" := value ]}.

(** run.ts, lines 235-245. *)
Definition parseActionLink (response : JsVal) (isInput : bool) : JsVal :=
  if negb (truthy response) then response
  else
    let dictionaryResponse :=
      if isString response
      then JObj {[ (if isInput then "Inputs" else "Outputs") := response ]}
      else response in
    JObj (foldl
            (λ prev current,
               <[ current := boundParameter current (js_get dictionaryResponse current) ]> prev)
            ∅ (Object_keys dictionaryResponse)).

(** run.ts, lines 209-227. *)
Definition getActionLinks (this : StandardRunService W) (actionMetadata : option ActionMetadata.t)
    (nodeId : string) : Eff W JsVal :=
  let inputsLink := actionMetadata ≫= ActionMetadata.inputsLink in
  let outputsLink := actionMetadata ≫= ActionMetadata.outputsLink in
  if _isDev this then
    let inputs := nullish_or (default JUndefined (inputsResponse !! nodeId)) (JObj ∅) in
    let outputs := nullish_or (default JUndefined (outputsResponse !! nodeId)) (JObj ∅) in
    mret (JObj {[ "inputs" := parseActionLink inputs true;
                  "outputs" := parseActionLink outputs false ]})
  else
    outputs ←
      match outputsLink with
      | Some link => if truthy_opt (ContentLink.uri link) then getContent this link
                     else mret (JObj ∅)
      | None => mret (JObj ∅)
      end;
    inputs ←
      match inputsLink with
      | Some link => if truthy_opt (ContentLink.uri link) then getContent this link
                     else mret (JObj ∅)
      | None => mret (JObj ∅)
      end;
    mret (JObj {[ "inputs" := parseActionLink inputs true;
                  "outputs" := parseActionLink outputs false ]}).

(** The [runs] array of a page [{ nextLink, runs }], as the loop below reads
    it. *)
Definition page_runs (page : JsVal) : list JsVal :=
  match js_get page "runs" with
  | JArr runs => runs
  | _ => []
  end.

(** The continuation link of a page or of a response envelope: a [nextLink]
    that is present and not empty. [Runs] types the field as a string or
    undefined; a value of another type counts as no link. *)
Definition continuation (value : JsVal) : option string :=
  match js_get value "nextLink" with
  | JStr nextLink => if truthy_string nextLink then Some nextLink else None
  | _ => None
  end.

(** Modelled from the spec: the pagination loop of the callers, which is not
    part of run.ts. "First page comes from getRuns()"; "each page's nextLink,
    if non-empty, is the exact URI for the next call via getMoreRuns";
    "iteration terminates when nextLink is empty/absent". The loop returns the
    concatenation of the [runs] arrays, or [None] when [fuel] further pages
    did not reach the last one. *)
Fixpoint getRemainingRuns (fuel : nat) (this : StandardRunService W) (page : JsVal) :
    Eff W (option (list JsVal)) :=
  match continuation page with
  | Some nextLink =>
      match fuel with
      | O => mret None
      | S fuel' =>
          next ← getMoreRuns this nextLink;
          rest ← getRemainingRuns fuel' this next;
          mret (app (page_runs page) <$> rest)
      end
  | None => mret (Some (page_runs page))
  end.

(** Modelled from the spec: the whole retrieval, "getRuns followed by repeated
    getMoreRuns using each returned nextLink". *)
Definition getAllRuns (fuel : nat) (this : StandardRunService W) : Eff W (option (list JsVal)) :=
  first ← getRuns this;
  getRemainingRuns fuel this first.

End Service.

(* ===================================================================== *)
(** ** Vocabulary of the properties *)
(* ===================================================================== *)

(** An authenticated GET as [getRuns], [getMoreRuns], [getScopeRepetitions]
    and [getRepetition] log it, and the unauthenticated GET of
    [getContent]. *)
Definition getOptions (uri : string) (headers : option HeadersArg) : HttpRequestOptions.t :=
  {| HttpRequestOptions.uri := uri;
     HttpRequestOptions.headers := headers;
     HttpRequestOptions.noAuth := None |}.

Definition getCall (uri : string) (headers : option HeadersArg) : Call :=
  {| call_verb := GET; call_options := getOptions uri headers |}.

Definition contentOptions (uri : string) : HttpRequestOptions.t :=
  {| HttpRequestOptions.uri := uri;
     HttpRequestOptions.noAuth := Some true;
     HttpRequestOptions.headers := Some (HeadersRecord [("Access-Control-Allow-Origin", "*")]) |}.

Definition contentCall (uri : string) : Call :=
  {| call_verb := GET; call_options := contentOptions uri |}.

Definition triggerOptions (uri : string) : HttpRequestOptions.t :=
  {| HttpRequestOptions.uri := uri;
     HttpRequestOptions.headers := None;
     HttpRequestOptions.noAuth := None |}.

(** The transport verb that matches a method string, if any. *)
Definition verb_of_method (method : string) : option Verb :=
  let lowered := toLowerCase method in
  if String.eqb lowered "get" then Some GET
  else if String.eqb lowered "post" then Some POST
  else if String.eqb lowered "put" then Some PUT
  else None.

(** The URI a content link can be fetched from: present and not empty. *)
Definition fetchable (link : option ContentLink.t) : option string :=
  match link ≫= ContentLink.uri with
  | Some uri => if truthy_string uri then Some uri else None
  | None => None
  end.

Section Vocabulary.

Context {W : Type}.
Variable c : IHttpClient.t W.

(** [fetches link w body w' calls]: what [getActionLinks] obtains for one
    link starting in world [w]. A link that is not fetchable leaves the
    default [{}] and the world as it is; a fetchable one is answered by the
    transport with [body]. *)
Inductive fetches : option ContentLink.t → W → JsVal → W → list Call → Prop :=
  | fetches_skip link w :
      fetchable link = None → fetches link w (JObj ∅) w []
  | fetches_get link uri w body w' :
      fetchable link = Some uri →
      IHttpClient.get c (contentOptions uri) w = (Returned body, w') →
      fetches link w body w' [contentCall uri].

(** [serves headers w uri pages w']: asked for [uri] in world [w], the
    transport answers with the first envelope of [pages]; every envelope but
    the last carries a non-empty [nextLink], under which the transport serves
    the rest, and the last envelope has none: it omits [nextLink] or carries
    an empty one. *)
Inductive serves (headers : option HeadersArg) : W → string → list JsVal → W → Prop :=
  | serves_last w uri props w' :
      IHttpClient.get c (getOptions uri headers) w = (Returned (JObj props), w') →
      continuation (JObj props) = None →
      serves headers w uri [JObj props] w'
  | serves_next w uri props nextLink w' pages w'' :
      IHttpClient.get c (getOptions uri headers) w = (Returned (JObj props), w') →
      continuation (JObj props) = Some nextLink →
      serves headers w' nextLink pages w'' →
      serves headers w uri (JObj props :: pages) w''.

End Vocabulary.

(** The [value] array of a response envelope. *)
Definition envelope_runs (response : JsVal) : list JsVal :=
  match js_get response "value" with
  | JArr runs => runs
  | _ => []
  end.

(** The access token passes [getAccessTokenHeaders]: there is none, it is
    empty (no [Headers] object is built), or [new Headers] accepts it. *)
Definition token_accepted {W} (platform : Platform) (o : RunServiceOptions.t W) : bool :=
  match RunServiceOptions.accessToken o with
  | Some token => negb (truthy_string token) || acceptable_header_value platform token
  | None => true
  end.

(** The headers [getAccessTokenHeaders] then returns. *)
Definition authorizationHeaders {W} (o : RunServiceOptions.t W) : option HeadersArg :=
  match RunServiceOptions.accessToken o with
  | Some token =>
      if truthy_string token then Some (HeadersObject [("Authorization", token)]) else None
  | None => None
  end.

(** A fixture payload of dev mode: [table[nodeId] ?? {}]. *)
Definition fixture (table : gmap string JsVal) (nodeId : string) : JsVal :=
  match table !! nodeId with
  | Some JUndefined | Some JNull | None => JObj ∅
  | Some payload => payload
  end.

(** A plain [Error]: built by [new Error(message)], with no status code and
    no server error body. *)
Definition is_plain_error (e : JsError) : Prop :=
  err_name e = Error ∧ err_status e = None ∧ err_data_error_message e = None.

(** A run that raises nothing but plain Errors. *)
Definition raises_only_plain {W A} (run : Outcome A * St W) : Prop :=
  match run.1 with
  | Returned _ => True
  | Raised e => is_plain_error e
  end.

(** The request [getActionLinks] makes for a link, if it makes one. *)
Definition linkCalls (link : option ContentLink.t) : list Call :=
  match fetchable link with
  | Some uri => [contentCall uri]
  | None => []
  end.

(* ===================================================================== *)
(** ** Concrete transports, options and payloads *)
(* ===================================================================== *)

Module Examples.

(** A platform whose [Headers] checks a value as the Fetch standard does on
    code units below 256: leading and trailing HTTP whitespace is dropped, and
    what is left must hold no NUL, CR or LF. The only number outside the safe
    integers that the examples print is 10^21. *)
Definition is_http_whitespace (c : ascii) : bool :=
  let n := nat_of_ascii c in
  (n =? 9)%nat || (n =? 10)%nat || (n =? 13)%nat || (n =? 32)%nat.

Fixpoint strip_leading (s : string) : string :=
  match s with
  | EmptyString => EmptyString
  | String c rest => if is_http_whitespace c then strip_leading rest else s
  end.

Fixpoint strip_trailing (s : string) : string :=
  match s with
  | EmptyString => EmptyString
  | String c rest =>
      match strip_trailing rest with
      | EmptyString => if is_http_whitespace c then EmptyString else String c EmptyString
      | kept => String c kept
      end
  end.

Fixpoint no_NUL_CR_LF (s : string) : bool :=
  match s with
  | EmptyString => true
  | String c rest =>
      let n := nat_of_ascii c in
      negb ((n =? 0)%nat || (n =? 10)%nat || (n =? 13)%nat) && no_NUL_CR_LF rest
  end.

Definition fetch_header_value (s : string) : bool :=
  no_NUL_CR_LF (strip_trailing (strip_leading s)).

Definition browser : Platform :=
  {| acceptable_header_value := fetch_header_value;
     headers_message := λ _, "Invalid value";
     destructuring_message := λ _, "Cannot destructure";
     number_text := λ _, "1e+21" |}.

(** A token with a line feed inside. *)
Definition brokenToken : string := "to" +:+ String "010"%char "ken".

Definition unavailable : JsError :=
  {| err_name := TransportFailure;
     err_message := "Network Error";
     err_status := Some 503%Z;
     err_data_error_message := Some "Service Unavailable" |}.

(** A rejection whose status, 10^21, is beyond the safe integers. *)
Definition overloaded : JsError :=
  {| err_name := TransportFailure;
     err_message := "Network Error";
     err_status := Some (10 ^ 21)%Z;
     err_data_error_message := None |}.

Definition overloadedClient : IHttpClient.t nat :=
  {| IHttpClient.get := λ _ w, (Raised overloaded, S w);
     IHttpClient.post := λ _ w, (Raised overloaded, S w);
     IHttpClient.put := λ _ w, (Raised overloaded, S w) |}.

(** A transport whose every call is rejected. The world counts the calls. *)
Definition failingClient : IHttpClient.t nat :=
  {| IHttpClient.get := λ _ w, (Raised unavailable, S w);
     IHttpClient.post := λ _ w, (Raised unavailable, S w);
     IHttpClient.put := λ _ w, (Raised unavailable, S w) |}.

Definition run (name : string) : JsVal := JObj {[ "name" := JStr name ]}.

Definition firstPage : JsVal :=
  JObj {[ "nextLink" := JStr "https://host/runs?page=2";
          "value" := JArr [run "r1"; run "r2"] ]}.

Definition lastPage : JsVal := JObj {[ "value" := JArr [run "r3"] ]}.

(** A transport that serves two pages of runs and echoes the URI of every
    other request. *)
Definition pagedClient : IHttpClient.t nat :=
  {| IHttpClient.get := λ o w,
       (Returned
          (if String.eqb (HttpRequestOptions.uri o) "https://host/workflows/wf/runs?api-version=2018-11-01"
           then firstPage
           else if String.eqb (HttpRequestOptions.uri o) "https://host/runs?page=2"
           then lastPage
           else JStr (HttpRequestOptions.uri o)), S w);
     IHttpClient.post := λ o w, (Returned (JStr (HttpRequestOptions.uri o)), S w);
     IHttpClient.put := λ o w, (Returned (JStr (HttpRequestOptions.uri o)), S w) |}.

(** A transport whose every page carries an empty [nextLink]. *)
Definition emptyLinkPage : JsVal :=
  JObj {[ "nextLink" := JStr ""; "value" := JArr [run "r1"] ]}.

Definition emptyLinkClient : IHttpClient.t nat :=
  {| IHttpClient.get := λ _ w, (Returned emptyLinkPage, S w);
     IHttpClient.post := λ _ w, (Returned emptyLinkPage, S w);
     IHttpClient.put := λ _ w, (Returned emptyLinkPage, S w) |}.

(** A transport that answers every request with [null]. *)
Definition nullClient : IHttpClient.t nat :=
  {| IHttpClient.get := λ _ w, (Returned JNull, S w);
     IHttpClient.post := λ _ w, (Returned JNull, S w);
     IHttpClient.put := λ _ w, (Returned JNull, S w) |}.

(** A transport that answers its first request and rejects the later ones. *)
Definition flakyClient : IHttpClient.t nat :=
  {| IHttpClient.get := λ o w,
       (match w with
        | O => Returned (JStr (HttpRequestOptions.uri o))
        | S _ => Raised unavailable
        end, S w);
     IHttpClient.post := λ _ w, (Raised unavailable, S w);
     IHttpClient.put := λ _ w, (Raised unavailable, S w) |}.

Definition optionsFor (c : IHttpClient.t nat) (isDev : option bool) : RunServiceOptions.t nat :=
  {| RunServiceOptions.apiVersion := "2018-11-01";
     RunServiceOptions.baseUrl := "https://host";
     RunServiceOptions.httpClient := c;
     RunServiceOptions.accessToken := Some "token";
     RunServiceOptions.workflowName := "wf";
     RunServiceOptions.isDev := isDev |}.

Definition serviceFor (c : IHttpClient.t nat) (dev : bool) : StandardRunService nat :=
  {| options := optionsFor c (Some dev); _isDev := dev |}.

(** A service outside dev mode with the given access token. *)
Definition serviceWithToken (c : IHttpClient.t nat) (token : option string) :
    StandardRunService nat :=
  {| options := {| RunServiceOptions.apiVersion := "2018-11-01";
                   RunServiceOptions.baseUrl := "https://host";
                   RunServiceOptions.httpClient := c;
                   RunServiceOptions.accessToken := token;
                   RunServiceOptions.workflowName := "wf";
                   RunServiceOptions.isDev := None |};
     _isDev := false |}.

(** Resolvers of a callback URL: one that reads it off the descriptor, one
    that finds none. *)
Definition descriptorUrl (callbackInfo : CallbackInfo) : Eff nat (option string) :=
  mret (match callbackInfo with
        | CallbackInfoWithRelativePath _ relativePath => Some relativePath
        | CallbackInfoWithValue value => Some value
        end).

Definition noUrl (_ : CallbackInfo) : Eff nat (option string) := mret None.

Definition fixtures : gmap string JsVal :=
  {[ "Compose" := JStr "hello"; "Http" := JObj {[ "a" := JNum 1; "b" := JNum 2 ]} ]}.

End Examples.

(* ===================================================================== *)
(** ** Properties *)
(* ===================================================================== *)

Section Properties.

Context {W : Type}.
Variable platform : Platform.
Variable inputsResponse : gmap string JsVal.
Variable outputsResponse : gmap string JsVal.

Implicit Types (this : StandardRunService W) (st : St W) (w : W) (log : list Call).

(** *** parseActionLink *)

(** Reducing a list of keys with "insert the entry computed from the key" is
    the map that holds that entry at each of the keys. *)
Lemma foldl_insert_lookup {A} (g : string → A) (keys : list string) (acc : gmap string A)
    (i : string) :
  foldl (λ prev current, <[ current := g current ]> prev) acc keys !! i
  = if decide (i ∈ keys) then Some (g i) else acc !! i.
Proof.
  revert acc; induction keys as [|k keys IH]; intros acc; simpl.
  - destruct (decide (i ∈ [])) as [Hin|_]; [by apply elem_of_nil in Hin | done].
  - rewrite IH. destruct (decide (i = k)) as [->|Hne].
    + rewrite lookup_insert_eq, (decide_True _ _ (list_elem_of_here k keys)).
      by destruct (decide (k ∈ keys)).
    + rewrite lookup_insert_ne by done.
      destruct (decide (i ∈ keys)) as [Hin|Hin].
      * by rewrite decide_True by (by apply list_elem_of_further).
      * rewrite decide_False; [done|]. by intros [?|?]%elem_of_cons.
Qed.

Lemma reduce_keys_imap (d : JsVal) :
  foldl (λ prev current, <[ current := boundParameter current (js_get d current) ]> prev)
        ∅ (Object_keys d)
  = map_imap (λ k v, Some (boundParameter k v)) (own_props d).
Proof.
  apply map_eq; intros i.
  rewrite (foldl_insert_lookup (λ k, boundParameter k (js_get d k))).
  rewrite map_lookup_imap, lookup_empty. unfold Object_keys, js_get.
  destruct (own_props d !! i) as [v|] eqn:Hi; simpl.
  - rewrite decide_True; [done|].
    apply list_elem_of_fmap. exists (i, v). split; [done|].
    by apply elem_of_map_to_list.
  - rewrite decide_False; [done|].
    intros ([k v] & -> & Hin)%list_elem_of_fmap.
    apply elem_of_map_to_list in Hin. simpl in Hi. congruence.
Qed.

Lemma parseActionLink_falsy (response : JsVal) (isInput : bool) :
  truthy response = false → parseActionLink response isInput = response.
Proof. intros H. unfold parseActionLink. by rewrite H. Qed.

Lemma parseActionLink_mapping (response : JsVal) (isInput : bool) :
  truthy response = true → isString response = false →
  parseActionLink response isInput
  = JObj (map_imap (λ k v, Some (boundParameter k v)) (own_props response)).
Proof.
  intros Ht Hs. unfold parseActionLink. rewrite Ht, Hs. simpl.
  by rewrite reduce_keys_imap.
Qed.

Lemma parseActionLink_string (s : string) (isInput : bool) :
  s ≠ "" →
  parseActionLink (JStr s) isInput
  = let key := if isInput then "Inputs" else "Outputs" in
    JObj {[ key := boundParameter key (JStr s) ]}.
Proof.
  intros Hs. unfold parseActionLink. simpl.
  destruct (String.eqb_spec s "") as [|_]; [done|]. simpl.
  rewrite reduce_keys_imap. simpl. f_equal.
  apply map_eq; intros i. rewrite map_lookup_imap.
  destruct (decide (i = if isInput then "Inputs" else "Outputs")) as [->|Hne].
  - by rewrite !lookup_singleton_eq.
  - by rewrite !lookup_singleton_ne.
Qed.

(** C1 (amended). [parseActionLink] is a function of its two arguments and
    runs outside the effect monad. A falsy input (null, undefined, and also
    the empty string) is returned unchanged. A non-empty string becomes the
    one-entry mapping under "Inputs" when [isInput] is true and "Outputs"
    when it is false, the entry being { displayName: key, value: the string }.
    Any object (or array) becomes a mapping with the same keys, where every
    key k maps to { displayName: k, value: the original value at k }, whatever
    [isInput] is. *)
Theorem parseActionLink_normalizes (response : JsVal) (isInput : bool) :
  (truthy response = false → parseActionLink response isInput = response) ∧
  (∀ s, response = JStr s → s ≠ "" →
     let key := if isInput then "Inputs" else "Outputs" in
     parseActionLink response isInput = JObj {[ key := boundParameter key (JStr s) ]}) ∧
  (truthy response = true → isString response = false →
     ∃ result,
       parseActionLink response isInput = JObj result ∧
       parseActionLink response (negb isInput) = JObj result ∧
       dom result = dom (own_props response) ∧
       ∀ k, result !! k = boundParameter k <$> own_props response !! k).
Proof.
  split; [apply parseActionLink_falsy|]. split.
  - intros s -> Hs. by apply parseActionLink_string.
  - intros Ht Hs. eexists. rewrite !parseActionLink_mapping by done.
    split; [done|]. split; [done|]. split.
    + apply set_eq; intros k. rewrite !elem_of_dom, map_lookup_imap.
      destruct (own_props response !! k); simpl; split; intros [? ?]; by eauto.
    + intros k. rewrite map_lookup_imap. by destruct (own_props response !! k).
Qed.

(** *** The constructor *)

(** C2. Construction fails at once with an ArgumentException when
    [options.baseUrl] is empty, and likewise when [options.apiVersion] is
    empty; for every options with both non-empty it succeeds whatever [isDev]
    is, and the stored dev flag is [isDev] when supplied and false
    otherwise. *)
Theorem constructor_validates (opts : RunServiceOptions.t W) :
  (RunServiceOptions.baseUrl opts = "" →
     constructor opts = Raised (new_error ArgumentException "baseUrl required")) ∧
  (RunServiceOptions.apiVersion opts = "" →
     ∃ message, constructor opts = Raised (new_error ArgumentException message)) ∧
  (RunServiceOptions.baseUrl opts ≠ "" → RunServiceOptions.apiVersion opts ≠ "" →
     ∃ this,
       constructor opts = Returned this ∧
       options this = opts ∧
       _isDev this = match RunServiceOptions.isDev opts with
                     | Some flag => flag
                     | None => false
                     end).
Proof.
  unfold constructor, truthy_string. split; [|split].
  - intros ->. done.
  - intros ->. destruct (String.eqb_spec (RunServiceOptions.baseUrl opts) ""); simpl; eauto.
  - intros Hb Ha.
    destruct (String.eqb_spec (RunServiceOptions.baseUrl opts) ""); [done|].
    destruct (String.eqb_spec (RunServiceOptions.apiVersion opts) ""); [done|].
    simpl. eexists; split; [done|]. split; [done|].
    by destruct (RunServiceOptions.isDev opts).
Qed.

(** *** The transport calls *)

Lemma bind_run {A B} (m : Eff W A) (k : A → Eff W B) st :
  (m ≫= k) st
  = match m st with
    | (Returned a, st') => k a st'
    | (Raised e, st') => (Raised e, st')
    end.
Proof. reflexivity. Qed.

Lemma request_run (c : IHttpClient.t W) (v : Verb) (o : HttpRequestOptions.t) w log :
  request c v o (w, log)
  = ((verb_of v c o w).1,
     ((verb_of v c o w).2, log ++ [{| call_verb := v; call_options := o |}])).
Proof. unfold request. by destruct (verb_of v c o w). Qed.

(** The shape shared by the read operations: one GET inside a [try] whose
    [catch] throws [new Error(e.message)]. *)
Lemma guarded_get_rejected {A} (c : IHttpClient.t W) (o : HttpRequestOptions.t)
    (k : JsVal → Eff W A) w log e w' :
  IHttpClient.get c o w = (Raised e, w') →
  try_catch (request c GET o ≫= k) (λ e, throw (new_error Error (err_message e))) (w, log)
  = (Raised (new_error Error (err_message e)),
     (w', log ++ [{| call_verb := GET; call_options := o |}])).
Proof.
  intros H. unfold try_catch, mbind, eff_mbind, eff_bind.
  rewrite request_run. simpl. by rewrite H.
Qed.

(** Closes a goal about an operation whose body is that shape, from the
    hypothesis that the transport rejected the request. *)
Ltac rejected_get H := exact (guarded_get_rejected _ _ _ _ _ _ _ H).

Lemma guarded_get_answered {A} (c : IHttpClient.t W) (o : HttpRequestOptions.t)
    (k : JsVal → Eff W A) w log response w' :
  IHttpClient.get c o w = (Returned response, w') →
  try_catch (request c GET o ≫= k) (λ e, throw (new_error Error (err_message e))) (w, log)
  = try_catch (k response) (λ e, throw (new_error Error (err_message e)))
      (w', log ++ [{| call_verb := GET; call_options := o |}]).
Proof.
  intros H. unfold try_catch, mbind, eff_mbind, eff_bind.
  rewrite request_run. simpl. by rewrite H.
Qed.

Lemma guarded_get_log {A} (c : IHttpClient.t W) (o : HttpRequestOptions.t)
    (k : JsVal → Eff W A) w log :
  (∀ response st, (k response st).2 = st) →
  (try_catch (request c GET o ≫= k) (λ e, throw (new_error Error (err_message e)))
     (w, log)).2
  = ((IHttpClient.get c o w).2, log ++ [{| call_verb := GET; call_options := o |}]).
Proof.
  intros Hk. unfold try_catch, mbind, eff_mbind, eff_bind.
  rewrite request_run. simpl.
  destruct (IHttpClient.get c o w) as [[response|e] w']; simpl; [|done].
  specialize (Hk response (w', log ++ [{| call_verb := GET; call_options := o |}])).
  by destruct (k response _) as [[?|?] ?]; simpl in *; subst.
Qed.

Lemma truthy_string_ne (s : string) : truthy_string s = true ↔ s ≠ "".
Proof.
  unfold truthy_string. destruct (String.eqb_spec s ""); simpl; split; congruence.
Qed.

Lemma getContent_rejected this (uri : string) w log e w' :
  uri ≠ "" →
  IHttpClient.get (RunServiceOptions.httpClient (options this)) (contentOptions uri) w
    = (Raised e, w') →
  getContent this {| ContentLink.uri := Some uri |} (w, log)
  = (Raised (new_error Error (err_message e)), (w', log ++ [contentCall uri])).
Proof.
  intros Hne H. unfold getContent. simpl.
  apply truthy_string_ne in Hne. rewrite Hne. simpl.
  rejected_get H.
Qed.

(** *** The access token *)

Lemma getAccessTokenHeaders_accepted this st :
  token_accepted platform (options this) = true →
  getAccessTokenHeaders platform this st
  = (Returned (authorizationHeaders (options this)), st).
Proof.
  unfold token_accepted, getAccessTokenHeaders, authorizationHeaders.
  destruct (RunServiceOptions.accessToken (options this)) as [token|]; [|done].
  destruct (truthy_string token); simpl; [|done].
  by intros ->.
Qed.

Lemma getAccessTokenHeaders_refused this st :
  token_accepted platform (options this) = false →
  ∃ token,
    RunServiceOptions.accessToken (options this) = Some token ∧
    getAccessTokenHeaders platform this st
    = (Raised (new_error TypeError (headers_message platform token)), st).
Proof.
  unfold token_accepted, getAccessTokenHeaders.
  destruct (RunServiceOptions.accessToken (options this)) as [token|]; [|done].
  destruct (truthy_string token); simpl; [|done].
  intros ->. by exists token.
Qed.

(** Runs [getAccessTokenHeaders] at the head of an operation, for a token
    that passes. *)
Ltac with_headers Htoken :=
  rewrite bind_run, (getAccessTokenHeaders_accepted _ _ Htoken).

(** *** Error shaping of the read operations *)

(** C6. For each of getContent, getRun, getRuns, getMoreRuns,
    getScopeRepetitions and getRepetition: when the transport call of the
    operation is rejected with an error e, the operation raises a plain Error
    whose message is exactly e's message; the raised error carries neither a
    status code nor a server error body. The four operations that send the
    access token reach their transport call once [new Headers] has accepted
    the token. *)
Theorem read_operations_rethrow_message this w log (e : JsError) w' :
  let o := options this in
  let c := RunServiceOptions.httpClient o in
  let headers := authorizationHeaders o in
  let plain := new_error Error (err_message e) in
  (∀ uri, uri ≠ "" →
     IHttpClient.get c (contentOptions uri) w = (Raised e, w') →
     getContent this {| ContentLink.uri := Some uri |} (w, log)
     = (Raised plain, (w', log ++ [contentCall uri]))) ∧
  (∀ runId,
     let uri := RunServiceOptions.baseUrl o +:+ "/workflows/" +:+ RunServiceOptions.workflowName o
                +:+ "/runs/" +:+ runId +:+ "?api-version=" +:+ RunServiceOptions.apiVersion o
                +:+ "&$expand=properties/actions,workflow/properties" in
     IHttpClient.get c (getOptions uri None) w = (Raised e, w') →
     getRun this runId (w, log) = (Raised plain, (w', log ++ [getCall uri None]))) ∧
  (let uri := RunServiceOptions.baseUrl o +:+ "/workflows/" +:+ RunServiceOptions.workflowName o
              +:+ "/runs?api-version=" +:+ RunServiceOptions.apiVersion o in
   token_accepted platform o = true →
   IHttpClient.get c (getOptions uri headers) w = (Raised e, w') →
   getRuns platform this (w, log)
   = (Raised plain, (w', log ++ [getCall uri headers]))) ∧
  (∀ continuationToken,
     token_accepted platform o = true →
     IHttpClient.get c (getOptions continuationToken headers) w = (Raised e, w') →
     getMoreRuns platform this continuationToken (w, log)
     = (Raised plain, (w', log ++ [getCall continuationToken headers]))) ∧
  (∀ action status,
     _isDev this = false →
     token_accepted platform o = true →
     let uri := scopeRepetitionsUri o action status in
     IHttpClient.get c (getOptions uri headers) w = (Raised e, w') →
     getScopeRepetitions platform this action status (w, log)
     = (Raised plain, (w', log ++ [getCall uri headers]))) ∧
  (∀ action repetitionId,
     token_accepted platform o = true →
     let uri := RunServiceOptions.baseUrl o +:+ tpl_string (Action.runId action) +:+ "/actions/"
                +:+ Action.nodeId action +:+ "/repetitions/" +:+ repetitionId
                +:+ "?api-version=" +:+ RunServiceOptions.apiVersion o in
     IHttpClient.get c (getOptions uri headers) w = (Raised e, w') →
     getRepetition platform this action repetitionId (w, log)
     = (Raised plain, (w', log ++ [getCall uri headers]))) ∧
  err_message plain = err_message e ∧
  err_status plain = None ∧
  err_data_error_message plain = None.
Proof.
  simpl. split_and!; try done.
  - intros uri Hne H. by apply getContent_rejected.
  - intros runId H. rejected_get H.
  - intros Htoken H. unfold getRuns. with_headers Htoken. rejected_get H.
  - intros token Htoken H. unfold getMoreRuns. with_headers Htoken. rejected_get H.
  - intros action status Hdev Htoken H. unfold getScopeRepetitions. rewrite Hdev.
    with_headers Htoken. rejected_get H.
  - intros action repetitionId Htoken H. unfold getRepetition. with_headers Htoken.
    rejected_get H.
Qed.

(** *** getScopeRepetitions *)

(** C7. When the client was constructed with the dev flag set,
    getScopeRepetitions returns { value: [] } and leaves the world and the
    request log as they were, for every nodeId, runId and status. *)
Theorem getScopeRepetitions_dev (opts : RunServiceOptions.t W) this (action : Action.t)
    (status : option string) st :
  constructor opts = Returned this →
  RunServiceOptions.isDev opts = Some true →
  getScopeRepetitions platform this action status st
  = (Returned (JObj {[ "value" := JArr [] ]}), st).
Proof.
  unfold constructor. intros Hnew Hdev.
  destruct (negb (truthy_string (RunServiceOptions.baseUrl opts))); [done|].
  destruct (negb (truthy_string (RunServiceOptions.apiVersion opts))); [done|].
  injection Hnew as <-. unfold getScopeRepetitions. simpl. by rewrite Hdev.
Qed.

(** C8 (amended). In non-dev mode, with an access token that is absent, empty
    or accepted by [new Headers], getScopeRepetitions issues one GET whose URI
    is {baseUrl}{runId}/actions/{nodeId}/scopeRepetitions?api-version=
    {apiVersion}, followed by the suffix &$filter=status eq '{status}' exactly
    when a status is supplied and is not the empty string; when status is
    omitted or empty nothing is appended. With a token that [new Headers]
    refuses, the TypeError is thrown before the URI is built and no request is
    made. *)
Theorem getScopeRepetitions_uri this (action : Action.t) (status : option string) w log :
  _isDev this = false →
  let o := options this in
  let suffix := match status with
                | Some s => if decide (s = "") then "" else "&$filter=status eq '" +:+ s +:+ "'"
                | None => ""
                end in
  (token_accepted platform o = true →
   (getScopeRepetitions platform this action status (w, log)).2.2
   = log ++ [getCall (RunServiceOptions.baseUrl o +:+ tpl_string (Action.runId action)
                      +:+ "/actions/" +:+ Action.nodeId action
                      +:+ "/scopeRepetitions?api-version=" +:+ RunServiceOptions.apiVersion o
                      +:+ suffix)
                     (authorizationHeaders o)]) ∧
  (token_accepted platform o = false →
   ∃ token,
     RunServiceOptions.accessToken o = Some token ∧
     getScopeRepetitions platform this action status (w, log)
     = (Raised (new_error TypeError (headers_message platform token)), (w, log))).
Proof.
  intros Hdev o suffix. unfold getScopeRepetitions. rewrite Hdev. split.
  - intros Htoken. with_headers Htoken.
    rewrite guarded_get_log by done. simpl. do 2 f_equal.
    unfold getCall, getOptions, scopeRepetitionsUri, scopeRepetitionsFilter.
    replace suffix with (if truthy_opt status
                         then "&$filter=status eq '" +:+ tpl_string status +:+ "'" else "");
      [done|].
    subst suffix. destruct status as [s|]; simpl; [|done].
    unfold truthy_string. by destruct (String.eqb_spec s ""), (decide (s = "")).
  - intros Htoken.
    destruct (getAccessTokenHeaders_refused this (w, log) Htoken) as (token & Ht & Hh).
    exists token. split; [done|]. by rewrite bind_run, Hh.
Qed.

(** *** getHttpRequestByMethod and runTrigger *)

(** The cases of the [switch] on the lower-cased method. *)
Ltac switch_method method :=
  destruct (String.eqb_spec (toLowerCase method) "get");
  [|destruct (String.eqb_spec (toLowerCase method) "post");
    [|destruct (String.eqb_spec (toLowerCase method) "put")]].

Lemma getHttpRequestByMethod_verb (c : IHttpClient.t W) (method : string)
    (o : HttpRequestOptions.t) (v : Verb) :
  verb_of_method method = Some v →
  getHttpRequestByMethod c method o = request c v o.
Proof.
  unfold verb_of_method, getHttpRequestByMethod.
  switch_method method; [by intros [= <-]..|done].
Qed.

Lemma getHttpRequestByMethod_unsupported (c : IHttpClient.t W) (method : string)
    (o : HttpRequestOptions.t) :
  verb_of_method method = None →
  getHttpRequestByMethod c method o
  = throw (new_error UnsupportedException
             ("Unsupported call connector method - '" +:+ method +:+ "'")).
Proof.
  unfold verb_of_method, getHttpRequestByMethod.
  by switch_method method.
Qed.

(** C5 (amended). getHttpRequestByMethod dispatches case-insensitively: a
    method whose lower-casing is "get", "post" or "put" invokes the matching
    transport verb with the given options; every other method throws an
    UnsupportedException without invoking the transport, and the message of
    the exception names the rejected method as it was given (for "DELETE",
    'DELETE'). *)
Theorem getHttpRequestByMethod_dispatch (c : IHttpClient.t W) (method : string)
    (o : HttpRequestOptions.t) st :
  (toLowerCase method = "get" → getHttpRequestByMethod c method o st = request c GET o st) ∧
  (toLowerCase method = "post" → getHttpRequestByMethod c method o st = request c POST o st) ∧
  (toLowerCase method = "put" → getHttpRequestByMethod c method o st = request c PUT o st) ∧
  (toLowerCase method ≠ "get" → toLowerCase method ≠ "post" → toLowerCase method ≠ "put" →
   getHttpRequestByMethod c method o st
   = (Raised (new_error UnsupportedException
                ("Unsupported call connector method - '" +:+ method +:+ "'")), st)).
Proof.
  repeat split.
  - intros H. rewrite (getHttpRequestByMethod_verb _ _ _ GET); [done|].
    unfold verb_of_method. by rewrite H.
  - intros H. rewrite (getHttpRequestByMethod_verb _ _ _ POST); [done|].
    unfold verb_of_method. by rewrite H.
  - intros H. rewrite (getHttpRequestByMethod_verb _ _ _ PUT); [done|].
    unfold verb_of_method. by rewrite H.
  - intros Hg Hp Hu. rewrite getHttpRequestByMethod_unsupported; [done|].
    unfold verb_of_method. by switch_method method.
Qed.

(** C10. For every callback descriptor, runTrigger throws an Error with
    message 'Function not implemented.' and leaves the world and the request
    log untouched: getCallbackUrl throws before the dispatch is reached. *)
Theorem runTrigger_not_implemented this (callbackInfo : CallbackInfo) st :
  runTrigger platform this callbackInfo st
  = (Raised (new_error Error "Function not implemented."), st).
Proof. reflexivity. Qed.

Lemma runTrigger_with_unresolved (resolve : CallbackInfo → Eff W (option string)) this
    (callbackInfo : CallbackInfo) st (uri : option string) :
  resolve callbackInfo st = (Returned uri, st) →
  fetchable (Some {| ContentLink.uri := uri |}) = None →
  runTrigger_with platform resolve this callbackInfo st = (Raised (new_error Error ""), st).
Proof.
  intros Hr Hu. unfold runTrigger_with, mbind, eff_mbind, eff_bind. rewrite Hr.
  unfold fetchable in Hu. simpl in Hu.
  destruct uri as [uri|]; [|done].
  by destruct (truthy_string uri).
Qed.

Lemma runTrigger_with_rejected (resolve : CallbackInfo → Eff W (option string)) this
    (callbackInfo : CallbackInfo) w log (uri : string) (v : Verb) (e : JsError) w' :
  resolve callbackInfo (w, log) = (Returned (Some uri), (w, log)) →
  uri ≠ "" →
  verb_of_method (callbackMethod callbackInfo) = Some v →
  verb_of v (RunServiceOptions.httpClient (options this)) (triggerOptions uri) w
    = (Raised e, w') →
  runTrigger_with platform resolve this callbackInfo (w, log)
  = (Raised (new_error Error
               (tpl_number (number_text platform) (err_status e) +:+ " " +:+ tpl_string (err_data_error_message e))),
     (w', log ++ [{| call_verb := v; call_options := triggerOptions uri |}])).
Proof.
  intros Hr Hne Hv He. unfold runTrigger_with, mbind, eff_mbind, eff_bind. rewrite Hr.
  apply truthy_string_ne in Hne. rewrite Hne. simpl.
  unfold try_catch, eff_bind.
  rewrite (getHttpRequestByMethod_verb _ _ _ v Hv).
  change {| HttpRequestOptions.uri := uri; HttpRequestOptions.headers := None;
            HttpRequestOptions.noAuth := None |} with (triggerOptions uri).
  rewrite request_run, He. done.
Qed.

(** X20. The body of runTrigger, taken with the helper that resolves the URI
    as a parameter (the getCallbackUrl of run.ts always throws, so runTrigger
    itself never gets this far). When no URI is resolved, because the
    resolution throws or yields undefined or the empty string, the body fails
    and the transport is not invoked. When a URI is resolved and the
    dispatched transport call is rejected with an error e, the raised Error
    has the message made of e's status code and e's data.error.message,
    joined by a space; e's own message is not part of it. *)
Theorem runTrigger_with_error_shaping (resolve : CallbackInfo → Eff W (option string)) this
    (callbackInfo : CallbackInfo) w log :
  (∀ e, resolve callbackInfo (w, log) = (Raised e, (w, log)) →
     runTrigger_with platform resolve this callbackInfo (w, log) = (Raised e, (w, log))) ∧
  (∀ uri, resolve callbackInfo (w, log) = (Returned uri, (w, log)) →
     uri = None ∨ uri = Some "" →
     runTrigger_with platform resolve this callbackInfo (w, log)
     = (Raised (new_error Error ""), (w, log))) ∧
  (∀ uri v e w',
     resolve callbackInfo (w, log) = (Returned (Some uri), (w, log)) →
     uri ≠ "" →
     verb_of_method (callbackMethod callbackInfo) = Some v →
     verb_of v (RunServiceOptions.httpClient (options this)) (triggerOptions uri) w
       = (Raised e, w') →
     runTrigger_with platform resolve this callbackInfo (w, log)
     = (Raised (new_error Error
                  (tpl_number (number_text platform) (err_status e) +:+ " "
                   +:+ tpl_string (err_data_error_message e))),
        (w', log ++ [{| call_verb := v; call_options := triggerOptions uri |}]))).
Proof.
  split; [|split].
  - intros e Hr. unfold runTrigger_with, mbind, eff_mbind, eff_bind. by rewrite Hr.
  - intros uri Hr Hu. apply (runTrigger_with_unresolved _ _ _ _ uri); [done|].
    by destruct Hu as [-> | ->].
  - intros uri v e w'. apply runTrigger_with_rejected.
Qed.

(** *** getActionLinks *)

Lemma fetchable_Some (link : ContentLink.t) (uri : string) :
  fetchable (Some link) = Some uri →
  link = {| ContentLink.uri := Some uri |} ∧ truthy_string uri = true.
Proof.
  unfold fetchable. destruct link as [[u|]]; simpl; [|done].
  destruct (truthy_string u) eqn:Hu; [|done]. by intros [= ->].
Qed.

Lemma fetchable_None (link : ContentLink.t) :
  fetchable (Some link) = None → truthy_opt (ContentLink.uri link) = false.
Proof.
  unfold fetchable. destruct link as [[u|]]; simpl; [|done].
  by destruct (truthy_string u).
Qed.

(** One of the two conditional fetches of run.ts, lines 220-225. *)
Lemma conditional_fetch this (link : option ContentLink.t) w log body w' calls :
  fetches (RunServiceOptions.httpClient (options this)) link w body w' calls →
  match link with
  | Some l => if truthy_opt (ContentLink.uri l) then getContent this l else mret (JObj ∅)
  | None => mret (JObj ∅)
  end (w, log)
  = (Returned body, (w', log ++ calls)).
Proof.
  intros [l v Hskip | l uri v b v' Hget Hanswer].
  - rewrite app_nil_r. destruct l as [l|]; [|done].
    by rewrite (fetchable_None _ Hskip).
  - destruct l as [l|]; [|done].
    destruct (fetchable_Some _ _ Hget) as [-> Ht]. simpl. rewrite Ht.
    unfold getContent. simpl. rewrite Ht. simpl.
    by rewrite (guarded_get_answered _ _ _ _ _ _ _ Hanswer).
Qed.

(** C9. In dev mode getActionLinks leaves the world and the request log
    untouched whatever the links and the node id are, and returns the fixture
    payloads found under the node id, {} where there is none, each normalized
    by parseActionLink. In non-dev mode it fetches the outputs content first
    and only when outputsLink.uri is present, then the inputs content, only
    when inputsLink.uri is present, in the world the first fetch left; it
    returns { inputs, outputs } with both payloads normalized by
    parseActionLink, inputs with isInput = true and outputs with isInput =
    false. A rejected outputs fetch ends the call before the inputs are
    requested. *)
Theorem getActionLinks_sources this (actionMetadata : option ActionMetadata.t)
    (nodeId : string) w log :
  let c := RunServiceOptions.httpClient (options this) in
  let inputsLink := actionMetadata ≫= ActionMetadata.inputsLink in
  let outputsLink := actionMetadata ≫= ActionMetadata.outputsLink in
  let result inputs outputs :=
    JObj {[ "inputs" := parseActionLink inputs true;
            "outputs" := parseActionLink outputs false ]} in
  (_isDev this = true →
     getActionLinks inputsResponse outputsResponse this actionMetadata nodeId (w, log)
     = (Returned (result (fixture inputsResponse nodeId) (fixture outputsResponse nodeId)),
        (w, log))) ∧
  (_isDev this = false →
     ∀ outputs w1 outputCalls inputs w2 inputCalls,
       fetches c outputsLink w outputs w1 outputCalls →
       fetches c inputsLink w1 inputs w2 inputCalls →
       (∀ call, call ∈ outputCalls → fetchable outputsLink = Some (HttpRequestOptions.uri (call_options call))) ∧
       (∀ call, call ∈ inputCalls → fetchable inputsLink = Some (HttpRequestOptions.uri (call_options call))) ∧
       getActionLinks inputsResponse outputsResponse this actionMetadata nodeId (w, log)
       = (Returned (result inputs outputs), (w2, log ++ outputCalls ++ inputCalls))) ∧
  (_isDev this = false →
     ∀ uri e w1,
       fetchable outputsLink = Some uri →
       IHttpClient.get c (contentOptions uri) w = (Raised e, w1) →
       getActionLinks inputsResponse outputsResponse this actionMetadata nodeId (w, log)
       = (Raised (new_error Error (err_message e)), (w1, log ++ [contentCall uri]))).
Proof.
  intros c inputsLink outputsLink result. split; [|split].
  - intros Hdev. unfold getActionLinks. rewrite Hdev. unfold result, fixture.
    destruct (inputsResponse !! nodeId) as [[]|], (outputsResponse !! nodeId) as [[]|]; done.
  - intros Hdev outputs w1 outputCalls inputs w2 inputCalls Hout Hin.
    split; [|split].
    + intros call Hcall. destruct Hout as [? ? ?|? ? ? ? ? Hf ?];
        [by apply elem_of_nil in Hcall|].
      apply list_elem_of_singleton in Hcall. by subst call.
    + intros call Hcall. destruct Hin as [? ? ?|? ? ? ? ? Hf ?];
        [by apply elem_of_nil in Hcall|].
      apply list_elem_of_singleton in Hcall. by subst call.
    + unfold getActionLinks. rewrite Hdev.
      rewrite bind_run. fold outputsLink.
      rewrite (conditional_fetch this outputsLink w log _ _ _ Hout).
      rewrite bind_run. fold inputsLink.
      rewrite (conditional_fetch this inputsLink w1 _ _ _ _ Hin).
      by rewrite app_assoc.
  - intros Hdev uri e w1 Hf He. unfold getActionLinks. rewrite Hdev.
    rewrite bind_run. fold outputsLink. destruct outputsLink as [l|]; [|done].
    destruct (fetchable_Some _ _ Hf) as [-> Ht]. simpl. rewrite Ht.
    rewrite (getContent_rejected this uri w log e w1); [done| |done].
    by apply truthy_string_ne.
Qed.

(** *** getRuns, getMoreRuns and the pagination protocol *)

Lemma page_nextLink (nextLink runs : JsVal) :
  js_get (JObj {[ "nextLink" := nextLink; "runs" := runs ]}) "nextLink" = nextLink.
Proof. unfold js_get. simpl. by rewrite lookup_insert_eq. Qed.

Lemma page_runs_envelope (response : JsVal) :
  page_runs (JObj {[ "nextLink" := js_get response "nextLink";
                     "runs" := js_get response "value" ]})
  = envelope_runs response.
Proof.
  unfold page_runs, envelope_runs. unfold js_get at 1. simpl.
  rewrite lookup_insert_ne by done. by rewrite lookup_singleton_eq.
Qed.

Lemma destructure_ArmResources_defined (response : JsVal) st :
  response ≠ JUndefined → response ≠ JNull →
  destructure_ArmResources (W:=W) platform response st
  = (Returned (JObj {[ "nextLink" := js_get response "nextLink";
                       "runs" := js_get response "value" ]}), st).
Proof. by destruct response. Qed.

Lemma paged_get_answered this (uri : string) (response : JsVal) w log w' :
  IHttpClient.get (RunServiceOptions.httpClient (options this))
    (getOptions uri (authorizationHeaders (options this))) w = (Returned response, w') →
  response ≠ JUndefined → response ≠ JNull →
  try_catch
    (request (RunServiceOptions.httpClient (options this)) GET
       (getOptions uri (authorizationHeaders (options this)))
     ≫= destructure_ArmResources platform)
    (λ e, throw (new_error Error (err_message e))) (w, log)
  = (Returned (JObj {[ "nextLink" := js_get response "nextLink";
                       "runs" := js_get response "value" ]}),
     (w', log ++ [getCall uri (authorizationHeaders (options this))])).
Proof.
  intros H Hu Hn. rewrite (guarded_get_answered _ _ _ _ _ _ _ H).
  unfold try_catch. by rewrite destructure_ArmResources_defined.
Qed.

Lemma getMoreRuns_answered this (continuationToken : string) (response : JsVal) w log w' :
  token_accepted platform (options this) = true →
  IHttpClient.get (RunServiceOptions.httpClient (options this))
    (getOptions continuationToken (authorizationHeaders (options this))) w
    = (Returned response, w') →
  response ≠ JUndefined → response ≠ JNull →
  getMoreRuns platform this continuationToken (w, log)
  = (Returned (JObj {[ "nextLink" := js_get response "nextLink";
                       "runs" := js_get response "value" ]}),
     (w', log ++ [getCall continuationToken (authorizationHeaders (options this))])).
Proof.
  intros Htoken. unfold getMoreRuns. with_headers Htoken.
  exact (paged_get_answered this continuationToken response w log w').
Qed.

Lemma getRuns_answered this (response : JsVal) w log w' :
  let o := options this in
  let runsUri := RunServiceOptions.baseUrl o +:+ "/workflows/" +:+ RunServiceOptions.workflowName o
                 +:+ "/runs?api-version=" +:+ RunServiceOptions.apiVersion o in
  token_accepted platform o = true →
  IHttpClient.get (RunServiceOptions.httpClient o)
    (getOptions runsUri (authorizationHeaders o)) w = (Returned response, w') →
  response ≠ JUndefined → response ≠ JNull →
  getRuns platform this (w, log)
  = (Returned (JObj {[ "nextLink" := js_get response "nextLink";
                       "runs" := js_get response "value" ]}),
     (w', log ++ [getCall runsUri (authorizationHeaders o)])).
Proof.
  intros o runsUri Htoken. unfold getRuns. with_headers Htoken.
  exact (paged_get_answered this runsUri response w log w').
Qed.

Lemma paged_refused this (uri : string) w log :
  token_accepted platform (options this) = false →
  ∃ token,
    RunServiceOptions.accessToken (options this) = Some token ∧
    getMoreRuns platform this uri (w, log)
    = (Raised (new_error TypeError (headers_message platform token)), (w, log)).
Proof.
  intros Htoken.
  destruct (getAccessTokenHeaders_refused this (w, log) Htoken) as (token & Ht & Hh).
  exists token. split; [done|]. unfold getMoreRuns. by rewrite bind_run, Hh.
Qed.

Lemma getRemainingRuns_stop (fuel : nat) this (page : JsVal) st :
  continuation page = None →
  getRemainingRuns platform fuel this page st
  = (Returned (Some (page_runs page)), st).
Proof. intros H. destruct fuel; simpl; by rewrite H. Qed.

Lemma getRemainingRuns_step (fuel : nat) this (page : JsVal) (link : string) st :
  continuation page = Some link →
  getRemainingRuns platform (S fuel) this page st
  = (next ← getMoreRuns platform this link;
     rest ← getRemainingRuns platform fuel this next;
     mret (app (page_runs page) <$> rest)) st.
Proof. intros H. simpl. by rewrite H. Qed.

Lemma continuation_page (response : JsVal) :
  continuation (JObj {[ "nextLink" := js_get response "nextLink";
                        "runs" := js_get response "value" ]})
  = continuation response.
Proof. unfold continuation. by rewrite page_nextLink. Qed.

Lemma getRemainingRuns_serves this (link : string) (pages : list JsVal) w w' :
  token_accepted platform (options this) = true →
  serves (RunServiceOptions.httpClient (options this)) (authorizationHeaders (options this))
    w link pages w' →
  ∀ (fuel : nat) log (page : JsVal),
    continuation page = Some link →
    length pages ≤ fuel →
    getRemainingRuns platform fuel this page (w, log)
    = (Returned (Some (page_runs page ++ flat_map envelope_runs pages)),
       (w', log ++ map (λ uri, getCall uri (authorizationHeaders (options this)))
                       (link :: omap continuation pages))).
Proof.
  intros Htoken.
  induction 1 as [w uri props w' Hget Hlast | w uri props next w' pages w'' Hget Hnext _ IH];
    intros fuel log page Hpage Hfuel.
  - destruct fuel as [|fuel]; [simpl in Hfuel; lia|].
    rewrite (getRemainingRuns_step _ _ _ uri) by done. rewrite bind_run.
    rewrite (getMoreRuns_answered this uri (JObj props) w log w') by done.
    rewrite bind_run, getRemainingRuns_stop by (by rewrite continuation_page).
    rewrite page_runs_envelope. cbn [flat_map omap list_omap].
    by rewrite Hlast, app_nil_r.
  - destruct fuel as [|fuel]; [simpl in Hfuel; lia|].
    simpl in Hfuel.
    rewrite (getRemainingRuns_step _ _ _ uri) by done. rewrite bind_run.
    rewrite (getMoreRuns_answered this uri (JObj props) w log w') by done.
    rewrite bind_run, (IH fuel); [| |lia].
    + rewrite page_runs_envelope. cbn [flat_map omap list_omap].
      rewrite Hnext. cbn [map].
      f_equal. f_equal. by rewrite <- app_assoc.
    + by rewrite continuation_page.
Qed.

(** C3 (amended). With an access token that is absent, empty or accepted by
    [new Headers], getRuns issues a GET to {baseUrl}/workflows/{workflowName}/
    runs?api-version={apiVersion} and getMoreRuns a GET whose URI is the
    continuation token as given; both return { nextLink, runs }, the nextLink
    and value fields of the response envelope. Iterating getMoreRuns on each
    returned non-empty nextLink requests the pages the transport serves one
    after the other, stops at the first page whose envelope omits nextLink or
    carries an empty one, and yields the runs of all pages in the order they
    were served. With a token that [new Headers] refuses, getRuns and
    getMoreRuns throw its TypeError and issue no request. *)
Theorem runs_pagination this w log :
  let o := options this in
  let c := RunServiceOptions.httpClient o in
  let headers := authorizationHeaders o in
  let runsUri := RunServiceOptions.baseUrl o +:+ "/workflows/" +:+ RunServiceOptions.workflowName o
                 +:+ "/runs?api-version=" +:+ RunServiceOptions.apiVersion o in
  let page response :=
    JObj {[ "nextLink" := js_get response "nextLink"; "runs" := js_get response "value" ]} in
  (token_accepted platform o = true →
   (∀ response w',
      IHttpClient.get c (getOptions runsUri headers) w = (Returned response, w') →
      response ≠ JUndefined → response ≠ JNull →
      getRuns platform this (w, log)
      = (Returned (page response), (w', log ++ [getCall runsUri headers]))) ∧
   (∀ continuationToken response w',
      IHttpClient.get c (getOptions continuationToken headers) w = (Returned response, w') →
      response ≠ JUndefined → response ≠ JNull →
      getMoreRuns platform this continuationToken (w, log)
      = (Returned (page response), (w', log ++ [getCall continuationToken headers]))) ∧
   (∀ pages w',
      serves c headers w runsUri pages w' →
      length (omap continuation pages) = pred (length pages) ∧
      (∃ last, pages !! pred (length pages) = Some last ∧ continuation last = None) ∧
      ∀ fuel, length pages ≤ S fuel →
        getAllRuns platform fuel this (w, log)
        = (Returned (Some (flat_map envelope_runs pages)),
           (w', log ++ map (λ uri, getCall uri headers)
                           (runsUri :: omap continuation pages))))) ∧
  (token_accepted platform o = false →
   ∃ token,
     RunServiceOptions.accessToken o = Some token ∧
     getRuns platform this (w, log)
     = (Raised (new_error TypeError (headers_message platform token)), (w, log)) ∧
     ∀ continuationToken,
       getMoreRuns platform this continuationToken (w, log)
       = (Raised (new_error TypeError (headers_message platform token)), (w, log))).
Proof.
  intros o c headers runsUri page. split.
  - intros Htoken. split_and!.
    + intros response w' H Hu Hn. by apply getRuns_answered.
    + intros token response w' H Hu Hn. by apply getMoreRuns_answered.
    + intros pages w' Hserves. split_and!.
      * clear -Hserves.
        induction Hserves as [? ? ? ? _ Hlast|? ? ? ? ? ? ? _ Hnext Hrest IH];
          cbn [omap list_omap length].
        -- by rewrite Hlast.
        -- rewrite Hnext. cbn [length]. rewrite IH. by destruct Hrest.
      * clear -Hserves.
        induction Hserves as [? ? ? ? _ Hlast|? ? ? ? ? ? ? _ Hnext Hrest IH].
        -- by eexists.
        -- destruct IH as (last & Hl & Hnone). exists last. split; [|done].
           by destruct Hrest.
      * intros fuel Hfuel. unfold getAllRuns. rewrite bind_run.
        inversion Hserves as [? ? props ? Hget Hlast|? ? props next w1 rest ? Hget Hnext Hrest];
          subst; rewrite (getRuns_answered this (JObj props) w log _ Htoken Hget) by done.
        -- rewrite getRemainingRuns_stop by (by rewrite continuation_page).
           rewrite page_runs_envelope. cbn [flat_map omap list_omap].
           by rewrite Hlast, app_nil_r.
        -- simpl in Hfuel.
           rewrite (getRemainingRuns_serves this next rest w1 w' Htoken Hrest fuel); [| |lia].
           ++ rewrite page_runs_envelope. cbn [flat_map omap list_omap].
              rewrite Hnext. cbn [map].
              f_equal. f_equal. by rewrite <- app_assoc.
           ++ by rewrite continuation_page.
  - intros Htoken.
    destruct (paged_refused this runsUri w log Htoken) as (token & Ht & Hruns).
    exists token. split_and!; [done|exact Hruns|].
    intros continuationToken.
    destruct (paged_refused this continuationToken w log Htoken) as (token' & Ht' & Hmore).
    rewrite Ht in Ht'. by injection Ht' as <-.
Qed.

End Properties.

(* ===================================================================== *)
(** ** The properties at concrete inputs *)
(* ===================================================================== *)

Import Examples.

Lemma parseActionLink_normalizes_witness :
  parseActionLink JNull true = JNull ∧
  parseActionLink (JStr "hello") true
    = JObj {[ "Inputs" := boundParameter "Inputs" (JStr "hello") ]} ∧
  parseActionLink (JStr "hello") false
    = JObj {[ "Outputs" := boundParameter "Outputs" (JStr "hello") ]} ∧
  ∃ result,
    parseActionLink (JObj {[ "a" := JNum 1; "b" := JNum 2 ]}) true = JObj result ∧
    parseActionLink (JObj {[ "a" := JNum 1; "b" := JNum 2 ]}) false = JObj result ∧
    result !! "a" = Some (boundParameter "a" (JNum 1)) ∧
    result !! "b" = Some (boundParameter "b" (JNum 2)) ∧
    result !! "c" = None.
Proof.
  split; [|split; [|split]].
  - apply (parseActionLink_normalizes JNull true). reflexivity.
  - destruct (parseActionLink_normalizes (JStr "hello") true) as (_ & H & _).
    apply (H "hello"); [reflexivity|discriminate].
  - destruct (parseActionLink_normalizes (JStr "hello") false) as (_ & H & _).
    apply (H "hello"); [reflexivity|discriminate].
  - destruct (parseActionLink_normalizes (JObj {[ "a" := JNum 1; "b" := JNum 2 ]}) true)
      as (_ & _ & H).
    destruct (H eq_refl eq_refl) as (result & H1 & H2 & _ & Hk).
    exists result. split; [exact H1|]. split; [exact H2|].
    split; [|split]; rewrite Hk; reflexivity.
Defined.

(** The empty string is a string and is returned as it is, not wrapped. *)
Lemma parseActionLink_empty_string :
  parseActionLink (JStr "") true = JStr "" ∧
  parseActionLink (JStr "") true
    ≠ JObj {[ "Inputs" := boundParameter "Inputs" (JStr "") ]}.
Proof. split; [reflexivity | discriminate]. Qed.

Lemma constructor_validates_witness :
  constructor {| RunServiceOptions.apiVersion := "2018-11-01";
                 RunServiceOptions.baseUrl := "";
                 RunServiceOptions.httpClient := failingClient;
                 RunServiceOptions.accessToken := None;
                 RunServiceOptions.workflowName := "wf";
                 RunServiceOptions.isDev := Some true |}
    = Raised (new_error ArgumentException "baseUrl required") ∧
  (∃ message,
     constructor {| RunServiceOptions.apiVersion := "";
                    RunServiceOptions.baseUrl := "https://host";
                    RunServiceOptions.httpClient := failingClient;
                    RunServiceOptions.accessToken := None;
                    RunServiceOptions.workflowName := "wf";
                    RunServiceOptions.isDev := None |}
     = Raised (new_error ArgumentException message)) ∧
  (∃ this, constructor (optionsFor failingClient None) = Returned this ∧
           options this = optionsFor failingClient None ∧ _isDev this = false) ∧
  (∃ this, constructor (optionsFor failingClient (Some true)) = Returned this ∧
           options this = optionsFor failingClient (Some true) ∧ _isDev this = true).
Proof.
  split; [|split; [|split]].
  - apply constructor_validates. reflexivity.
  - apply constructor_validates. reflexivity.
  - apply (constructor_validates (optionsFor failingClient None)); discriminate.
  - apply (constructor_validates (optionsFor failingClient (Some true))); discriminate.
Defined.

Lemma pagedClient_serves :
  serves pagedClient (Some (HeadersObject [("Authorization", "token")])) 0
    "https://host/workflows/wf/runs?api-version=2018-11-01" [firstPage; lastPage] 2.
Proof.
  eapply serves_next; [reflexivity | reflexivity |].
  eapply serves_last; reflexivity.
Defined.

Lemma runs_pagination_witness :
  getRuns browser (serviceFor pagedClient false) (0, [])
    = (Returned (JObj {[ "nextLink" := JStr "https://host/runs?page=2";
                         "runs" := JArr [run "r1"; run "r2"] ]}),
       (1, [getCall "https://host/workflows/wf/runs?api-version=2018-11-01"
              (Some (HeadersObject [("Authorization", "token")]))])) ∧
  getMoreRuns browser (serviceFor pagedClient false) "https://host/runs?page=2" (0, [])
    = (Returned (JObj {[ "nextLink" := JUndefined; "runs" := JArr [run "r3"] ]}),
       (1, [getCall "https://host/runs?page=2"
              (Some (HeadersObject [("Authorization", "token")]))])) ∧
  getAllRuns browser 1 (serviceFor pagedClient false) (0, [])
    = (Returned (Some [run "r1"; run "r2"; run "r3"]),
       (2, [getCall "https://host/workflows/wf/runs?api-version=2018-11-01"
              (Some (HeadersObject [("Authorization", "token")]));
            getCall "https://host/runs?page=2"
              (Some (HeadersObject [("Authorization", "token")]))])) ∧
  ∃ token,
    Some brokenToken = Some token ∧
    getRuns browser (serviceWithToken pagedClient (Some brokenToken)) (0, [])
      = (Raised (new_error TypeError (headers_message browser token)), (0, [])) ∧
    ∀ continuationToken,
      getMoreRuns browser (serviceWithToken pagedClient (Some brokenToken))
        continuationToken (0, [])
      = (Raised (new_error TypeError (headers_message browser token)), (0, [])).
Proof.
  destruct (runs_pagination browser (serviceFor pagedClient false) 0 []) as (Haccepted & _).
  destruct (Haccepted eq_refl) as (Hfirst & Hmore & Hall).
  destruct (runs_pagination browser (serviceWithToken pagedClient (Some brokenToken)) 0 [])
    as (_ & Hrefused).
  split; [|split; [|split]].
  - apply (Hfirst firstPage 1); [reflexivity | discriminate | discriminate].
  - apply (Hmore "https://host/runs?page=2" lastPage 1);
      [reflexivity | discriminate | discriminate].
  - destruct (Hall [firstPage; lastPage] 2 pagedClient_serves) as (_ & _ & Hruns).
    apply (Hruns 1). simpl. lia.
  - apply Hrefused. reflexivity.
Defined.

(** Two inputs at which the claim as first stated fails. With an access token
    that [new Headers] refuses (a line feed inside), getRuns issues no GET: it
    throws the TypeError. And the iteration also ends at a page that carries
    a nextLink, when that nextLink is empty: one request is made and the loop
    returns, with fuel to spare. *)
Lemma runs_pagination_counterexample :
  getRuns browser (serviceWithToken pagedClient (Some brokenToken)) (0, [])
    = (Raised (new_error TypeError "Invalid value"), (0, [])) ∧
  js_get emptyLinkPage "nextLink" = JStr "" ∧
  getAllRuns browser 5 (serviceFor emptyLinkClient false) (0, [])
    = (Returned (Some [run "r1"]),
       (1, [getCall "https://host/workflows/wf/runs?api-version=2018-11-01"
              (Some (HeadersObject [("Authorization", "token")]))])).
Proof. split; [|split]; reflexivity. Qed.

(** C4. The failing input: a descriptor that is a plain callback URL, on a
    service whose transport rejects every call with status 503 and the server
    message Service Unavailable. runTrigger throws 'Function not implemented.'
    out of getCallbackUrl and never invokes the transport, so the error made
    of the status code and the server message is not raised. The body of
    runTrigger, once it is given the URI of the descriptor, makes the POST and
    raises that error. *)
Theorem runTrigger_misses_dispatch :
  runTrigger browser (serviceFor failingClient false)
      (CallbackInfoWithValue "https://host/trigger") (0, [])
    = (Raised (new_error Error "Function not implemented."), (0, [])) ∧
  runTrigger_with browser descriptorUrl (serviceFor failingClient false)
      (CallbackInfoWithValue "https://host/trigger") (0, [])
    = (Raised (new_error Error "503 Service Unavailable"),
       (1, [{| call_verb := POST; call_options := triggerOptions "https://host/trigger" |}])).
Proof. split; reflexivity. Qed.

Lemma getHttpRequestByMethod_dispatch_witness :
  getHttpRequestByMethod pagedClient "Get" (triggerOptions "https://host/a") (0, [])
    = (Returned (JStr "https://host/a"),
       (1, [{| call_verb := GET; call_options := triggerOptions "https://host/a" |}])) ∧
  getHttpRequestByMethod pagedClient "POST" (triggerOptions "https://host/a") (0, [])
    = (Returned (JStr "https://host/a"),
       (1, [{| call_verb := POST; call_options := triggerOptions "https://host/a" |}])) ∧
  getHttpRequestByMethod pagedClient "put" (triggerOptions "https://host/a") (0, [])
    = (Returned (JStr "https://host/a"),
       (1, [{| call_verb := PUT; call_options := triggerOptions "https://host/a" |}])) ∧
  getHttpRequestByMethod pagedClient "DELETE" (triggerOptions "https://host/a") (0, [])
    = (Raised (new_error UnsupportedException "Unsupported call connector method - 'DELETE'"),
       (0, [])).
Proof.
  split; [|split; [|split]].
  - apply (getHttpRequestByMethod_dispatch pagedClient "Get"). reflexivity.
  - destruct (getHttpRequestByMethod_dispatch pagedClient "POST"
                (triggerOptions "https://host/a") (0, [])) as (_ & H & _).
    apply H. reflexivity.
  - destruct (getHttpRequestByMethod_dispatch pagedClient "put"
                (triggerOptions "https://host/a") (0, [])) as (_ & _ & H & _).
    apply H. reflexivity.
  - destruct (getHttpRequestByMethod_dispatch pagedClient "DELETE"
                (triggerOptions "https://host/a") (0, [])) as (_ & _ & _ & H).
    apply H; discriminate.
Defined.

(** The message for "DELETE" names 'DELETE'; the lower-cased "delete" does not
    occur in it. *)
Lemma getHttpRequestByMethod_names_given_method :
  ∃ e, getHttpRequestByMethod pagedClient "DELETE" (triggerOptions "https://host/a") (0, [])
       = (Raised e, (0, [])) ∧
       err_message e = "Unsupported call connector method - 'DELETE'" ∧
       includes_from "delete" (err_message e) = false ∧
       includes_from "DELETE" (err_message e) = true.
Proof. eexists. repeat split. Qed.

Lemma read_operations_rethrow_message_witness :
  let this := serviceFor failingClient false in
  let headers := Some (HeadersObject [("Authorization", "token")]) in
  let plain := Raised (new_error Error "Network Error") in
  getContent this {| ContentLink.uri := Some "https://blob/in" |} (0, [])
    = (plain, (1, [contentCall "https://blob/in"])) ∧
  getRun this "r1" (0, [])
    = (plain,
       (1, [getCall ("https://host/workflows/wf/runs/r1?api-version=2018-11-01"
                     +:+ "&$expand=properties/actions,workflow/properties") None])) ∧
  getRuns browser this (0, [])
    = (plain,
       (1, [getCall "https://host/workflows/wf/runs?api-version=2018-11-01" headers])) ∧
  getMoreRuns browser this "https://host/runs?page=2" (0, [])
    = (plain, (1, [getCall "https://host/runs?page=2" headers])) ∧
  getScopeRepetitions browser this
      {| Action.nodeId := "For_each"; Action.runId := Some "/runs/r1" |} None (0, [])
    = (plain,
       (1, [getCall ("https://host/runs/r1/actions/For_each/scopeRepetitions"
                     +:+ "?api-version=2018-11-01") headers])) ∧
  getRepetition browser this
      {| Action.nodeId := "For_each"; Action.runId := Some "/runs/r1" |} "000001" (0, [])
    = (plain,
       (1, [getCall ("https://host/runs/r1/actions/For_each/repetitions/000001"
                     +:+ "?api-version=2018-11-01") headers])).
Proof.
  intros this headers plain.
  destruct (read_operations_rethrow_message browser this 0 [] unavailable 1)
    as (Hcontent & Hrun & Hruns & Hmore & Hscope & Hrepetition & _).
  split; [|split; [|split; [|split; [|split]]]].
  - apply Hcontent; [discriminate | reflexivity].
  - apply Hrun. reflexivity.
  - apply Hruns; reflexivity.
  - apply Hmore; reflexivity.
  - apply Hscope; reflexivity.
  - apply Hrepetition; reflexivity.
Defined.

Lemma getScopeRepetitions_dev_witness :
  getScopeRepetitions browser (serviceFor pagedClient true)
      {| Action.nodeId := "For_each"; Action.runId := Some "/runs/r1" |}
      (Some "Succeeded") (0, [])
    = (Returned (JObj {[ "value" := JArr [] ]}), (0, [])).
Proof.
  apply (getScopeRepetitions_dev browser (optionsFor pagedClient (Some true))); reflexivity.
Defined.

Lemma getScopeRepetitions_uri_witness :
  (getScopeRepetitions browser (serviceFor pagedClient false)
     {| Action.nodeId := "For_each"; Action.runId := Some "/runs/r1" |}
     (Some "Succeeded") (0, [])).2.2
    = [getCall ("https://host/runs/r1/actions/For_each/scopeRepetitions"
                +:+ "?api-version=2018-11-01&$filter=status eq 'Succeeded'")
         (Some (HeadersObject [("Authorization", "token")]))] ∧
  (getScopeRepetitions browser (serviceFor pagedClient false)
     {| Action.nodeId := "For_each"; Action.runId := Some "/runs/r1" |}
     None (0, [])).2.2
    = [getCall ("https://host/runs/r1/actions/For_each/scopeRepetitions"
                +:+ "?api-version=2018-11-01")
         (Some (HeadersObject [("Authorization", "token")]))] ∧
  ∃ token,
    Some brokenToken = Some token ∧
    getScopeRepetitions browser (serviceWithToken pagedClient (Some brokenToken))
      {| Action.nodeId := "For_each"; Action.runId := Some "/runs/r1" |}
      (Some "Succeeded") (0, [])
    = (Raised (new_error TypeError (headers_message browser token)), (0, [])).
Proof.
  split; [|split].
  - apply (getScopeRepetitions_uri browser (serviceFor pagedClient false)
             {| Action.nodeId := "For_each"; Action.runId := Some "/runs/r1" |}
             (Some "Succeeded") 0 [] eq_refl). reflexivity.
  - apply (getScopeRepetitions_uri browser (serviceFor pagedClient false)
             {| Action.nodeId := "For_each"; Action.runId := Some "/runs/r1" |}
             None 0 [] eq_refl). reflexivity.
  - apply (getScopeRepetitions_uri browser (serviceWithToken pagedClient (Some brokenToken))
             {| Action.nodeId := "For_each"; Action.runId := Some "/runs/r1" |}
             (Some "Succeeded") 0 [] eq_refl). reflexivity.
Defined.

(** Two inputs at which the claim as first stated fails. A status that is
    supplied but empty appends nothing: the request URI is not the one with
    the suffix &$filter=status eq ''. And with an access token that
    [new Headers] refuses (a line feed inside) no request is made at all. *)
Lemma getScopeRepetitions_empty_status :
  (getScopeRepetitions browser (serviceFor pagedClient false)
     {| Action.nodeId := "For_each"; Action.runId := Some "/runs/r1" |}
     (Some "") (0, [])).2.2
    = [getCall ("https://host/runs/r1/actions/For_each/scopeRepetitions"
                +:+ "?api-version=2018-11-01")
         (Some (HeadersObject [("Authorization", "token")]))] ∧
  (getScopeRepetitions browser (serviceFor pagedClient false)
     {| Action.nodeId := "For_each"; Action.runId := Some "/runs/r1" |}
     (Some "") (0, [])).2.2
    ≠ [getCall ("https://host/runs/r1/actions/For_each/scopeRepetitions"
                +:+ "?api-version=2018-11-01" +:+ "&$filter=status eq '" +:+ "" +:+ "'")
         (Some (HeadersObject [("Authorization", "token")]))] ∧
  getScopeRepetitions browser (serviceWithToken pagedClient (Some brokenToken))
    {| Action.nodeId := "For_each"; Action.runId := Some "/runs/r1" |}
    (Some "Succeeded") (0, [])
    = (Raised (new_error TypeError "Invalid value"), (0, [])).
Proof. split; [reflexivity | split; [discriminate | reflexivity]]. Qed.

Lemma getActionLinks_sources_witness :
  let metadata := Some {| ActionMetadata.inputsLink := Some {| ContentLink.uri := Some "https://blob/in" |};
                          ActionMetadata.outputsLink := Some {| ContentLink.uri := Some "https://blob/out" |} |} in
  getActionLinks fixtures fixtures (serviceFor failingClient true) metadata "Compose" (0, [])
    = (Returned (JObj {[ "inputs" := JObj {[ "Inputs" := boundParameter "Inputs" (JStr "hello") ]};
                         "outputs" := JObj {[ "Outputs" := boundParameter "Outputs" (JStr "hello") ]} ]}),
       (0, [])) ∧
  getActionLinks fixtures fixtures (serviceFor failingClient true) metadata "Missing" (0, [])
    = (Returned (JObj {[ "inputs" := JObj ∅; "outputs" := JObj ∅ ]}), (0, [])) ∧
  getActionLinks fixtures fixtures (serviceFor pagedClient false) metadata "Compose" (0, [])
    = (Returned (JObj {[ "inputs" := parseActionLink (JStr "https://blob/in") true;
                         "outputs" := parseActionLink (JStr "https://blob/out") false ]}),
       (2, [contentCall "https://blob/out"; contentCall "https://blob/in"])) ∧
  getActionLinks fixtures fixtures (serviceFor pagedClient false)
      (Some {| ActionMetadata.inputsLink := Some {| ContentLink.uri := Some "https://blob/in" |};
               ActionMetadata.outputsLink := Some {| ContentLink.uri := Some "" |} |})
      "Compose" (0, [])
    = (Returned (JObj {[ "inputs" := parseActionLink (JStr "https://blob/in") true;
                         "outputs" := parseActionLink (JObj ∅) false ]}),
       (1, [contentCall "https://blob/in"])) ∧
  getActionLinks fixtures fixtures (serviceFor failingClient false) metadata "Compose" (0, [])
    = (Raised (new_error Error "Network Error"), (1, [contentCall "https://blob/out"])).
Proof.
  intros metadata. split; [|split; [|split; [|split]]].
  - destruct (getActionLinks_sources fixtures fixtures (serviceFor failingClient true)
                metadata "Compose" 0 []) as (H & _).
    rewrite (H eq_refl). vm_compute. reflexivity.
  - destruct (getActionLinks_sources fixtures fixtures (serviceFor failingClient true)
                metadata "Missing" 0 []) as (H & _).
    rewrite (H eq_refl). vm_compute. reflexivity.
  - destruct (getActionLinks_sources fixtures fixtures (serviceFor pagedClient false)
                metadata "Compose" 0 []) as (_ & H & _).
    apply (H eq_refl (JStr "https://blob/out") 1 [contentCall "https://blob/out"]
             (JStr "https://blob/in") 2 [contentCall "https://blob/in"]).
    + by apply (fetches_get _ _ "https://blob/out").
    + by apply (fetches_get _ _ "https://blob/in").
  - destruct (getActionLinks_sources fixtures fixtures (serviceFor pagedClient false)
                (Some {| ActionMetadata.inputsLink := Some {| ContentLink.uri := Some "https://blob/in" |};
                         ActionMetadata.outputsLink := Some {| ContentLink.uri := Some "" |} |})
                "Compose" 0 []) as (_ & H & _).
    apply (H eq_refl (JObj ∅) 0 [] (JStr "https://blob/in") 1 [contentCall "https://blob/in"]).
    + by apply fetches_skip.
    + by apply (fetches_get _ _ "https://blob/in").
  - destruct (getActionLinks_sources fixtures fixtures (serviceFor failingClient false)
                metadata "Compose" 0 []) as (_ & _ & H).
    apply (H eq_refl "https://blob/out" unavailable 1); reflexivity.
Defined.

(* ===================================================================== *)
(** ** Further properties of the service *)
(* ===================================================================== *)

Section Frame.

Context {W : Type}.
Variable platform : Platform.
Variable inputsResponse : gmap string JsVal.
Variable outputsResponse : gmap string JsVal.

Implicit Types (this : StandardRunService W) (st : St W) (w : W) (log : list Call).

(** Runs [getAccessTokenHeaders] at the head of an operation, for a token
    that passes. *)
Ltac accept_token Htoken :=
  rewrite bind_run, (getAccessTokenHeaders_accepted _ _ _ Htoken).

(** *** What the read operations do to the transport *)

Lemma destructure_ArmResources_state (response : JsVal) st :
  (destructure_ArmResources (W:=W) platform response st).2 = st.
Proof. by destruct response. Qed.

(** X1. getContent without a usable URI: the link carries none, or an empty
    one. The call fails with an Error whose message is empty and the transport
    is not invoked. *)
Theorem getContent_without_uri this (contentLink : ContentLink.t) st :
  fetchable (Some contentLink) = None →
  getContent this contentLink st = (Raised (new_error Error ""), st).
Proof.
  intros H. apply fetchable_None in H. unfold getContent.
  destruct (ContentLink.uri contentLink) as [uri|]; [|done].
  simpl in H. by rewrite H.
Qed.

(** X2. Whatever the transport answers, each read operation that reaches the
    transport makes exactly one call on it, a GET of the URI the operation
    builds, and leaves the world as that call left it. getContent reaches it
    for a non-empty uri, getScopeRepetitions outside dev mode, and the four
    operations that send the access token once [new Headers] has accepted
    the token. *)
Theorem read_operations_single_get this w log :
  let o := options this in
  let c := RunServiceOptions.httpClient o in
  let headers := authorizationHeaders o in
  let after (request : HttpRequestOptions.t) : St W :=
    ((IHttpClient.get c request w).2,
     log ++ [{| call_verb := GET; call_options := request |}]) in
  (∀ uri, uri ≠ "" →
     (getContent this {| ContentLink.uri := Some uri |} (w, log)).2
     = after (contentOptions uri)) ∧
  (∀ runId,
     (getRun this runId (w, log)).2
     = after (getOptions
                (RunServiceOptions.baseUrl o +:+ "/workflows/"
                 +:+ RunServiceOptions.workflowName o +:+ "/runs/" +:+ runId
                 +:+ "?api-version=" +:+ RunServiceOptions.apiVersion o
                 +:+ "&$expand=properties/actions,workflow/properties") None)) ∧
  (token_accepted platform o = true →
   (getRuns platform this (w, log)).2
   = after (getOptions
              (RunServiceOptions.baseUrl o +:+ "/workflows/"
               +:+ RunServiceOptions.workflowName o
               +:+ "/runs?api-version=" +:+ RunServiceOptions.apiVersion o) headers)) ∧
  (∀ continuationToken,
     token_accepted platform o = true →
     (getMoreRuns platform this continuationToken (w, log)).2
     = after (getOptions continuationToken headers)) ∧
  (∀ action status,
     _isDev this = false →
     token_accepted platform o = true →
     (getScopeRepetitions platform this action status (w, log)).2
     = after (getOptions (scopeRepetitionsUri o action status) headers)) ∧
  (∀ action repetitionId,
     token_accepted platform o = true →
     (getRepetition platform this action repetitionId (w, log)).2
     = after (getOptions
                (RunServiceOptions.baseUrl o +:+ tpl_string (Action.runId action)
                 +:+ "/actions/" +:+ Action.nodeId action +:+ "/repetitions/"
                 +:+ repetitionId +:+ "?api-version=" +:+ RunServiceOptions.apiVersion o)
                headers)).
Proof.
  intros o c headers after. split_and!.
  - intros uri Hne. apply truthy_string_ne in Hne. unfold getContent. simpl.
    rewrite Hne. simpl. by rewrite guarded_get_log.
  - intros runId. unfold getRun. by rewrite guarded_get_log.
  - intros Htoken. unfold getRuns. accept_token Htoken.
    exact (guarded_get_log _ _ (destructure_ArmResources platform) w log
             (destructure_ArmResources_state)).
  - intros token Htoken. unfold getMoreRuns. accept_token Htoken.
    exact (guarded_get_log _ _ (destructure_ArmResources platform) w log
             (destructure_ArmResources_state)).
  - intros action status Hdev Htoken. unfold getScopeRepetitions. rewrite Hdev.
    accept_token Htoken. by rewrite guarded_get_log.
  - intros action repetitionId Htoken. unfold getRepetition. accept_token Htoken.
    by rewrite guarded_get_log.
Qed.

(** X3. The operations that hand the response on return the body the
    transport answered with, whatever it is. *)
Theorem read_operations_return_body this w log (body : JsVal) w' :
  let o := options this in
  let c := RunServiceOptions.httpClient o in
  let headers := authorizationHeaders o in
  (∀ uri, uri ≠ "" →
     IHttpClient.get c (contentOptions uri) w = (Returned body, w') →
     getContent this {| ContentLink.uri := Some uri |} (w, log)
     = (Returned body, (w', log ++ [contentCall uri]))) ∧
  (∀ runId,
     let uri := RunServiceOptions.baseUrl o +:+ "/workflows/"
                +:+ RunServiceOptions.workflowName o +:+ "/runs/" +:+ runId
                +:+ "?api-version=" +:+ RunServiceOptions.apiVersion o
                +:+ "&$expand=properties/actions,workflow/properties" in
     IHttpClient.get c (getOptions uri None) w = (Returned body, w') →
     getRun this runId (w, log) = (Returned body, (w', log ++ [getCall uri None]))) ∧
  (∀ action status,
     _isDev this = false →
     token_accepted platform o = true →
     let uri := scopeRepetitionsUri o action status in
     IHttpClient.get c (getOptions uri headers) w = (Returned body, w') →
     getScopeRepetitions platform this action status (w, log)
     = (Returned body, (w', log ++ [getCall uri headers]))) ∧
  (∀ action repetitionId,
     token_accepted platform o = true →
     let uri := RunServiceOptions.baseUrl o +:+ tpl_string (Action.runId action)
                +:+ "/actions/" +:+ Action.nodeId action +:+ "/repetitions/"
                +:+ repetitionId +:+ "?api-version=" +:+ RunServiceOptions.apiVersion o in
     IHttpClient.get c (getOptions uri headers) w = (Returned body, w') →
     getRepetition platform this action repetitionId (w, log)
     = (Returned body, (w', log ++ [getCall uri headers]))).
Proof.
  intros o c headers. split_and!.
  - intros uri Hne H. apply truthy_string_ne in Hne. unfold getContent. simpl.
    rewrite Hne. simpl. exact (guarded_get_answered _ _ _ _ _ _ _ H).
  - intros runId uri H. exact (guarded_get_answered _ _ _ _ _ _ _ H).
  - intros action status Hdev Htoken uri H. unfold getScopeRepetitions. rewrite Hdev.
    accept_token Htoken. exact (guarded_get_answered _ _ _ _ _ _ _ H).
  - intros action repetitionId Htoken uri H. unfold getRepetition. accept_token Htoken.
    exact (guarded_get_answered _ _ _ _ _ _ _ H).
Qed.

(** X4. A response that is [null] or [undefined] makes the destructuring in
    getRuns and getMoreRuns throw inside the [try]: the TypeError is caught
    and raised again as a plain Error with the TypeError's message, after the
    one call on the transport. *)
Theorem paged_operations_nullish_response this w log (response : JsVal) w' :
  let o := options this in
  let c := RunServiceOptions.httpClient o in
  let headers := authorizationHeaders o in
  token_accepted platform o = true →
  response = JNull ∨ response = JUndefined →
  (let uri := RunServiceOptions.baseUrl o +:+ "/workflows/"
              +:+ RunServiceOptions.workflowName o
              +:+ "/runs?api-version=" +:+ RunServiceOptions.apiVersion o in
   IHttpClient.get c (getOptions uri headers) w = (Returned response, w') →
   getRuns platform this (w, log)
   = (Raised (new_error Error (destructuring_message platform response)),
      (w', log ++ [getCall uri headers]))) ∧
  (∀ continuationToken,
     IHttpClient.get c (getOptions continuationToken headers) w = (Returned response, w') →
     getMoreRuns platform this continuationToken (w, log)
     = (Raised (new_error Error (destructuring_message platform response)),
        (w', log ++ [getCall continuationToken headers]))).
Proof.
  intros o c headers Htoken Hnull. split.
  - intros uri H. unfold getRuns. accept_token Htoken. fold o c headers.
    etrans; [exact (guarded_get_answered _ _ _ _ _ _ _ H)|].
    by destruct Hnull as [-> | ->].
  - intros token H. unfold getMoreRuns. accept_token Htoken. fold o c headers.
    etrans; [exact (guarded_get_answered _ _ _ _ _ _ _ H)|].
    by destruct Hnull as [-> | ->].
Qed.

(** X5. The first page is the continuation of the runs URI: getRuns is
    getMoreRuns applied to {baseUrl}/workflows/{workflowName}/runs?
    api-version={apiVersion}, on every state. *)
Theorem getRuns_as_getMoreRuns this st :
  let o := options this in
  getRuns platform this st
  = getMoreRuns platform this
      (RunServiceOptions.baseUrl o +:+ "/workflows/" +:+ RunServiceOptions.workflowName o
       +:+ "/runs?api-version=" +:+ RunServiceOptions.apiVersion o) st.
Proof. reflexivity. Qed.

(** X21. An access token that [new Headers] refuses stops the four operations
    that send it before their [try]: getRuns, getMoreRuns, getScopeRepetitions
    (outside dev mode) and getRepetition throw the TypeError of the
    constructor as it is, not a plain Error, and the transport is not
    invoked. *)
Theorem refused_token_stops_before_request this st :
  token_accepted platform (options this) = false →
  ∃ token,
    RunServiceOptions.accessToken (options this) = Some token ∧
    token ≠ "" ∧
    acceptable_header_value platform token = false ∧
    let refused : Outcome JsVal * St W :=
      (Raised (new_error TypeError (headers_message platform token)), st) in
    getRuns platform this st = refused ∧
    (∀ continuationToken, getMoreRuns platform this continuationToken st = refused) ∧
    (∀ action status,
       _isDev this = false → getScopeRepetitions platform this action status st = refused) ∧
    (∀ action repetitionId, getRepetition platform this action repetitionId st = refused).
Proof.
  intros Htoken.
  destruct (getAccessTokenHeaders_refused platform this st Htoken) as (token & Ht & Hh).
  exists token. unfold token_accepted in Htoken. rewrite Ht in Htoken.
  apply orb_false_iff in Htoken as [Hne Hrefused].
  apply negb_false_iff, truthy_string_ne in Hne.
  split_and!; try done. intros refused. split_and!.
  - unfold getRuns. by rewrite bind_run, Hh.
  - intros continuationToken. unfold getMoreRuns. by rewrite bind_run, Hh.
  - intros action status Hdev. unfold getScopeRepetitions.
    by rewrite Hdev, bind_run, Hh.
  - intros action repetitionId. unfold getRepetition. by rewrite bind_run, Hh.
Qed.

End Frame.

Section Shaping.

Context {W : Type}.
Variable platform : Platform.
Variable inputsResponse : gmap string JsVal.
Variable outputsResponse : gmap string JsVal.

Implicit Types (this : StandardRunService W) (st : St W) (w : W) (log : list Call).

Ltac accept_token Htoken :=
  rewrite bind_run, (getAccessTokenHeaders_accepted _ _ _ Htoken).

(** Unfolds a read operation down to its guarded GET and reads the state it
    leaves. *)
Ltac read_state :=
  rewrite ?guarded_get_log by (done || apply destructure_ArmResources_state);
  cbn [snd]; rewrite ?last_snoc.

(** *** Which requests carry the access token *)

(** X6. getRuns, getMoreRuns, getScopeRepetitions and getRepetition, when
    [new Headers] has accepted the access token, send it as the Authorization
    header of a Headers object if it is not empty, and no headers if there is
    no token or it is empty. getRun sends no headers at all and getContent
    only the CORS header, whatever token is configured. *)
Theorem authorization_header_scope this w log :
  let authorization :=
    match RunServiceOptions.accessToken (options this) with
    | Some token =>
        if decide (token = "") then None else Some (HeadersObject [("Authorization", token)])
    | None => None
    end in
  let sent (st : St W) := (HttpRequestOptions.headers ∘ call_options) <$> last st.2 in
  (token_accepted platform (options this) = true →
   sent (getRuns platform this (w, log)).2 = Some authorization ∧
   (∀ continuationToken,
      sent (getMoreRuns platform this continuationToken (w, log)).2
      = Some authorization) ∧
   (∀ action status,
      _isDev this = false →
      sent (getScopeRepetitions platform this action status (w, log)).2
      = Some authorization) ∧
   (∀ action repetitionId,
      sent (getRepetition platform this action repetitionId (w, log)).2
      = Some authorization)) ∧
  (∀ runId, sent (getRun this runId (w, log)).2 = Some None) ∧
  (∀ uri, uri ≠ "" →
     sent (getContent this {| ContentLink.uri := Some uri |} (w, log)).2
     = Some (Some (HeadersRecord [("Access-Control-Allow-Origin", "*")]))).
Proof.
  intros authorization sent.
  assert (authorizationHeaders (options this) = authorization) as Hauth.
  { unfold authorizationHeaders, authorization, truthy_string.
    destruct (RunServiceOptions.accessToken (options this)) as [token|]; [|done].
    by destruct (String.eqb_spec token ""), (decide (token = "")). }
  unfold sent. split_and!.
  - intros Htoken. split_and!.
    + unfold getRuns. accept_token Htoken. read_state. simpl. by rewrite Hauth.
    + intros token. unfold getMoreRuns. accept_token Htoken. read_state. simpl.
      by rewrite Hauth.
    + intros action status Hdev. unfold getScopeRepetitions. rewrite Hdev.
      accept_token Htoken. read_state. simpl. by rewrite Hauth.
    + intros action repetitionId. unfold getRepetition. accept_token Htoken.
      read_state. simpl. by rewrite Hauth.
  - intros runId. unfold getRun. by read_state.
  - intros uri Hne. apply truthy_string_ne in Hne. unfold getContent. simpl.
    rewrite Hne. simpl. by read_state.
Qed.

(** *** The errors the service raises *)

Lemma rethrow_is_plain {A} (body : Eff W A) (message : JsError → string) st :
  raises_only_plain (try_catch body (λ e, throw (new_error Error (message e))) st).
Proof.
  unfold raises_only_plain, try_catch, throw.
  by destruct (body st) as [[a|e0] st0].
Qed.

Lemma getContent_raises_plain this (contentLink : ContentLink.t) st :
  raises_only_plain (getContent this contentLink st).
Proof.
  unfold getContent. destruct (ContentLink.uri contentLink) as [uri|]; [|done].
  destruct (negb (truthy_string uri)); [done | apply rethrow_is_plain].
Qed.

Lemma conditional_fetch_raises_plain this (link : option ContentLink.t) st :
  raises_only_plain
    (match link with
     | Some l => if truthy_opt (ContentLink.uri l) then getContent this l
                 else mret (JObj ∅)
     | None => mret (JObj ∅)
     end st).
Proof.
  destruct link as [l|]; [|done].
  destruct (truthy_opt (ContentLink.uri l)); [apply getContent_raises_plain | done].
Qed.

(** X7. The errors that leave the asynchronous methods, for a transport that
    rejects with error objects. getContent, getRun, getActionLinks and
    runTrigger raise plain Errors only: class Error, no status code, no server
    error body. So do getMoreRuns, getRuns, getScopeRepetitions and
    getRepetition once [new Headers] has accepted the access token. *)
Theorem service_raises_plain_errors this st :
  (∀ contentLink, raises_only_plain (getContent this contentLink st)) ∧
  (∀ runId, raises_only_plain (getRun this runId st)) ∧
  (∀ actionMetadata nodeId,
     raises_only_plain
       (getActionLinks inputsResponse outputsResponse this actionMetadata nodeId st)) ∧
  (∀ callbackInfo, raises_only_plain (runTrigger platform this callbackInfo st)) ∧
  (token_accepted platform (options this) = true →
   raises_only_plain (getRuns platform this st) ∧
   (∀ continuationToken,
      raises_only_plain (getMoreRuns platform this continuationToken st)) ∧
   (∀ action status,
      raises_only_plain (getScopeRepetitions platform this action status st)) ∧
   (∀ action repetitionId,
      raises_only_plain (getRepetition platform this action repetitionId st))).
Proof.
  split_and!.
  - intros contentLink. apply getContent_raises_plain.
  - intros runId. apply rethrow_is_plain.
  - intros actionMetadata nodeId. unfold getActionLinks.
    destruct (_isDev this); [done|]. rewrite bind_run.
    pose proof (conditional_fetch_raises_plain this
                  (actionMetadata ≫= ActionMetadata.outputsLink) st) as Hout.
    destruct (match actionMetadata ≫= ActionMetadata.outputsLink with
              | Some l => if truthy_opt (ContentLink.uri l) then getContent this l
                          else mret (JObj ∅)
              | None => mret (JObj ∅)
              end st) as [[outputs|e] st1]; [|done].
    rewrite bind_run.
    pose proof (conditional_fetch_raises_plain this
                  (actionMetadata ≫= ActionMetadata.inputsLink) st1) as Hin.
    by destruct (match actionMetadata ≫= ActionMetadata.inputsLink with
                 | Some l => if truthy_opt (ContentLink.uri l) then getContent this l
                             else mret (JObj ∅)
                 | None => mret (JObj ∅)
                 end st1) as [[inputs|e] st2].
  - done.
  - intros Htoken. split_and!.
    + unfold getRuns. accept_token Htoken. apply rethrow_is_plain.
    + intros token. unfold getMoreRuns. accept_token Htoken. apply rethrow_is_plain.
    + intros action status. unfold getScopeRepetitions.
      destruct (_isDev this); [done|]. accept_token Htoken. apply rethrow_is_plain.
    + intros action repetitionId. unfold getRepetition. accept_token Htoken.
      apply rethrow_is_plain.
Qed.

(** *** A missing run id *)

(** X9. [action.runId] may be undefined; the template literal then writes the
    text "undefined" into the request URI of getScopeRepetitions and of
    getRepetition, and the request, for an access token that [new Headers]
    has accepted, is made all the same. *)
Theorem missing_runId_is_interpolated this (nodeId : string) (status : option string)
    (repetitionId : string) w log :
  let o := options this in
  let action := {| Action.nodeId := nodeId; Action.runId := None |} in
  token_accepted platform o = true →
  (_isDev this = false →
   (getScopeRepetitions platform this action status (w, log)).2.2
   = log ++ [getCall (RunServiceOptions.baseUrl o +:+ "undefined/actions/" +:+ nodeId
                      +:+ "/scopeRepetitions?api-version=" +:+ RunServiceOptions.apiVersion o
                      +:+ scopeRepetitionsFilter status)
               (authorizationHeaders o)]) ∧
  (getRepetition platform this action repetitionId (w, log)).2.2
  = log ++ [getCall (RunServiceOptions.baseUrl o +:+ "undefined/actions/" +:+ nodeId
                     +:+ "/repetitions/" +:+ repetitionId
                     +:+ "?api-version=" +:+ RunServiceOptions.apiVersion o)
              (authorizationHeaders o)].
Proof.
  intros o action Htoken. split.
  - intros Hdev. unfold getScopeRepetitions. rewrite Hdev. accept_token Htoken.
    by rewrite guarded_get_log.
  - unfold getRepetition. accept_token Htoken. by rewrite guarded_get_log.
Qed.

End Shaping.

(** *** parseActionLink on arrays, primitives and its own results *)

Lemma indexed_props_lookup (items : list JsVal) (n i : nat) :
  (list_to_map (imap (λ j x, (pretty (n + j), x)) items) : gmap string JsVal)
    !! pretty (n + i)
  = items !! i.
Proof.
  revert n i. induction items as [|x items IH]; intros n i; [done|].
  rewrite imap_cons, list_to_map_cons. destruct i as [|i]; simpl.
  - by rewrite lookup_insert_eq.
  - rewrite lookup_insert_ne by (intros H%(inj pretty); lia).
    rewrite (imap_ext _ (λ j x, (pretty (S n + j), x)))
      by (intros j y _; simpl; do 2 f_equal; lia).
    replace (n + S i) with (S n + i) by lia. apply IH.
Qed.

Lemma own_props_array_index (items : list JsVal) (i : nat) :
  own_props (JArr items) !! pretty i = items !! i.
Proof. exact (indexed_props_lookup items 0 i). Qed.

Lemma own_props_array_key (items : list JsVal) (k : string) (x : JsVal) :
  own_props (JArr items) !! k = Some x → ∃ i, k = pretty i ∧ items !! i = Some x.
Proof.
  simpl. intros H%elem_of_list_to_map_2.
  apply elem_of_lookup_imap in H as (i & y & [= -> ->] & Hi). eauto.
Qed.

(** X10. An array payload is normalized by index: the result holds, under the
    decimal index of every element, { displayName: index, value: element },
    and nothing else; the empty array becomes {}. *)
Theorem parseActionLink_array (items : list JsVal) (isInput : bool) :
  ∃ result,
    parseActionLink (JArr items) isInput = JObj result ∧
    (∀ i, result !! pretty i = boundParameter (pretty i) <$> items !! i) ∧
    (∀ k, is_Some (result !! k) → ∃ i, k = pretty i ∧ i < length items) ∧
    (items = [] → result = ∅).
Proof.
  eexists. rewrite parseActionLink_mapping by done. split; [done|]. split_and!.
  - intros i. rewrite map_lookup_imap, own_props_array_index.
    by destruct (items !! i).
  - intros k [v Hv]. rewrite map_lookup_imap in Hv.
    destruct (own_props (JArr items) !! k) as [x|] eqn:Hk; [|done].
    apply own_props_array_key in Hk as (i & -> & Hi).
    exists i. split; [done|]. by eapply lookup_lt_Some.
  - intros ->. simpl. apply map_imap_empty.
Qed.

(** X11. A truthy payload that has no properties of its own, a number other than
    0 or the boolean true, is normalized to {}: its value does not appear in
    the result. *)
Theorem parseActionLink_primitive (response : JsVal) (isInput : bool) :
  (∃ n, response = JNum n ∧ n ≠ 0%Z) ∨ response = JBool true →
  parseActionLink response isInput = JObj ∅.
Proof.
  intros [(n & -> & Hn) | ->].
  - rewrite parseActionLink_mapping; [simpl; by rewrite map_imap_empty| |done].
    simpl. by destruct (Z.eqb_spec n 0).
  - rewrite parseActionLink_mapping by done. simpl. by rewrite map_imap_empty.
Qed.

Lemma boundParameter_value (name : string) (value : JsVal) :
  js_get (boundParameter name value) "value" = value.
Proof.
  unfold js_get, boundParameter. simpl.
  rewrite lookup_insert_ne by done. by rewrite lookup_singleton_eq.
Qed.

Lemma boundParameter_displayName (name : string) (value : JsVal) :
  js_get (boundParameter name value) "displayName" = JStr name.
Proof. unfold js_get, boundParameter. simpl. by rewrite lookup_insert_eq. Qed.

(** X12. Normalization loses nothing of a truthy payload. For every own
    property k of an object or array payload, result[k].value is the
    payload's value at k and result[k].displayName is k. A non-empty string
    payload is found again as the value under Inputs or Outputs, whose
    displayName is that key. *)
Theorem parseActionLink_value_roundtrip (response : JsVal) (isInput : bool) (k : string) :
  truthy response = true →
  (isString response = false →
   is_Some (own_props response !! k) →
   js_get (js_get (parseActionLink response isInput) k) "value" = js_get response k ∧
   js_get (js_get (parseActionLink response isInput) k) "displayName" = JStr k) ∧
  (isString response = true →
   let key := if isInput then "Inputs" else "Outputs" in
   js_get (js_get (parseActionLink response isInput) key) "value" = response ∧
   js_get (js_get (parseActionLink response isInput) key) "displayName" = JStr key).
Proof.
  intros Ht. split.
  - intros Hs [v Hv]. rewrite parseActionLink_mapping by done.
    assert (js_get (JObj (map_imap (λ k v, Some (boundParameter k v)) (own_props response))) k
            = boundParameter k v) as ->.
    { unfold js_get. simpl. by rewrite map_lookup_imap, Hv. }
    unfold js_get at 2. rewrite Hv. simpl.
    split; [apply boundParameter_value | apply boundParameter_displayName].
  - destruct response as [| | | |s| |]; try done. intros _ key.
    rewrite parseActionLink_string
      by (simpl in Ht; by destruct (String.eqb_spec s "")).
    fold key. unfold js_get at 2 4. simpl. rewrite lookup_singleton_eq. simpl.
    split; [apply boundParameter_value | apply boundParameter_displayName].
Qed.

(** X13. parseActionLink is not idempotent on objects: applied to its own result
    it wraps every entry again, so that each key k holds { displayName: k,
    value: { displayName: k, value: original } }. A falsy payload stays as it
    is however often it is normalized. *)
Theorem parseActionLink_twice (response : JsVal) (isInput again : bool) :
  (truthy response = false →
     parseActionLink (parseActionLink response isInput) again = response) ∧
  (truthy response = true → isString response = false →
     ∃ result,
       parseActionLink (parseActionLink response isInput) again = JObj result ∧
       ∀ k, result !! k
            = (λ v, boundParameter k (boundParameter k v)) <$> own_props response !! k).
Proof.
  split.
  - intros Hf. rewrite (parseActionLink_falsy response) by done.
    by apply parseActionLink_falsy.
  - intros Ht Hs. eexists.
    rewrite (parseActionLink_mapping response) by done.
    rewrite parseActionLink_mapping by done. split; [done|].
    intros k. simpl. rewrite !map_lookup_imap.
    by destruct (own_props response !! k).
Qed.

Section Links.

Context {W : Type}.
Variable platform : Platform.
Variable inputsResponse : gmap string JsVal.
Variable outputsResponse : gmap string JsVal.

Implicit Types (this : StandardRunService W) (st : St W) (w : W) (log : list Call).

(** *** getActionLinks at its edges *)

Lemma parseActionLink_empty_object (isInput : bool) :
  parseActionLink (JObj ∅) isInput = JObj ∅.
Proof. rewrite parseActionLink_mapping by done. simpl. by rewrite map_imap_empty. Qed.

(** X14. Outside dev mode, with no metadata at all or with links that carry no
    usable URI, getActionLinks returns { inputs: {}, outputs: {} } and does
    not invoke the transport. *)
Theorem getActionLinks_without_links this (actionMetadata : option ActionMetadata.t)
    (nodeId : string) st :
  _isDev this = false →
  fetchable (actionMetadata ≫= ActionMetadata.inputsLink) = None →
  fetchable (actionMetadata ≫= ActionMetadata.outputsLink) = None →
  getActionLinks inputsResponse outputsResponse this actionMetadata nodeId st
  = (Returned (JObj {[ "inputs" := JObj ∅; "outputs" := JObj ∅ ]}), st).
Proof.
  intros Hdev Hin Hout. destruct st as [w log]. unfold getActionLinks. rewrite Hdev.
  rewrite bind_run.
  rewrite (conditional_fetch this _ w log _ _ _
             (fetches_skip (RunServiceOptions.httpClient (options this)) _ w Hout)).
  rewrite bind_run, app_nil_r.
  rewrite (conditional_fetch this _ w log _ _ _
             (fetches_skip (RunServiceOptions.httpClient (options this)) _ w Hin)).
  by rewrite app_nil_r, !parseActionLink_empty_object.
Qed.

(** X15. When the inputs fetch is rejected, getActionLinks raises the plain Error
    of getContent and hands back nothing of the outputs it has already
    fetched; the requests made are the outputs request, if any, and the
    inputs request. *)
Theorem getActionLinks_inputs_rejected this (actionMetadata : option ActionMetadata.t)
    (nodeId : string) w log (outputs : JsVal) w1 outputCalls (uri : string)
    (e : JsError) w2 :
  _isDev this = false →
  fetches (RunServiceOptions.httpClient (options this))
    (actionMetadata ≫= ActionMetadata.outputsLink) w outputs w1 outputCalls →
  fetchable (actionMetadata ≫= ActionMetadata.inputsLink) = Some uri →
  IHttpClient.get (RunServiceOptions.httpClient (options this)) (contentOptions uri) w1
    = (Raised e, w2) →
  getActionLinks inputsResponse outputsResponse this actionMetadata nodeId (w, log)
  = (Raised (new_error Error (err_message e)),
     (w2, log ++ outputCalls ++ [contentCall uri])).
Proof.
  intros Hdev Hout Hin He. unfold getActionLinks. rewrite Hdev.
  rewrite bind_run, (conditional_fetch this _ w log _ _ _ Hout), bind_run.
  destruct (actionMetadata ≫= ActionMetadata.inputsLink) as [l|]; [|done].
  destruct (fetchable_Some _ _ Hin) as [-> Ht]. simpl. rewrite Ht.
  rewrite (getContent_rejected this uri w1 _ e w2); [|by apply truthy_string_ne|done].
  by rewrite app_assoc.
Qed.

Lemma conditional_fetch_calls this (link : option ContentLink.t) w log :
  ∃ calls,
    (match link with
     | Some l => if truthy_opt (ContentLink.uri l) then getContent this l
                 else mret (JObj ∅)
     | None => mret (JObj ∅)
     end (w, log)).2.2 = log ++ calls ∧
    calls = linkCalls link.
Proof.
  unfold linkCalls. destruct (fetchable link) as [uri|] eqn:Hf.
  - destruct link as [l|]; [|done]. destruct (fetchable_Some _ _ Hf) as [-> Ht].
    simpl. rewrite Ht. unfold getContent. simpl. rewrite Ht. simpl.
    rewrite guarded_get_log by done. by eexists.
  - exists []. rewrite app_nil_r. split; [|done].
    destruct link as [l|]; [|done]. by rewrite (fetchable_None _ Hf).
Qed.

(** X16. In every mode and whatever the transport answers, getActionLinks only
    appends to the request log, and what it appends is a prefix of: the
    unauthenticated GET of the outputs URI, then that of the inputs URI. So it
    makes at most two calls, never a POST or PUT, and never requests the
    inputs before the outputs. *)
Theorem getActionLinks_calls this (actionMetadata : option ActionMetadata.t)
    (nodeId : string) w log :
  ∃ calls,
    (getActionLinks inputsResponse outputsResponse this actionMetadata nodeId (w, log)).2.2
    = log ++ calls ∧
    calls `prefix_of` linkCalls (actionMetadata ≫= ActionMetadata.outputsLink)
                      ++ linkCalls (actionMetadata ≫= ActionMetadata.inputsLink) ∧
    length calls ≤ 2 ∧
    Forall (λ call, call_verb call = GET ∧
                    HttpRequestOptions.noAuth (call_options call) = Some true) calls.
Proof.
  assert (∀ link, length (linkCalls link) ≤ 1 ∧
                  Forall (λ call, call_verb call = GET ∧
                            HttpRequestOptions.noAuth (call_options call) = Some true)
                         (linkCalls link)) as Hlink.
  { intros link. unfold linkCalls. destruct (fetchable link); simpl.
    - split; [lia|]. by repeat constructor.
    - split; [lia|]. constructor. }
  set (outLink := actionMetadata ≫= ActionMetadata.outputsLink).
  set (inLink := actionMetadata ≫= ActionMetadata.inputsLink).
  destruct (Hlink outLink) as [Hlo Hfo], (Hlink inLink) as [Hli Hfi].
  unfold getActionLinks. fold outLink inLink. destruct (_isDev this).
  - exists []. rewrite app_nil_r. split_and!; [done | apply prefix_nil | simpl; lia | constructor].
  - rewrite bind_run.
    destruct (conditional_fetch_calls this outLink w log) as (callsO & HO & ->).
    destruct (match outLink with
              | Some l => if truthy_opt (ContentLink.uri l) then getContent this l
                          else mret (JObj ∅)
              | None => mret (JObj ∅)
              end (w, log)) as [[outputs|e] [w1 log1]] eqn:Hout; simpl in HO; subst log1.
    + rewrite bind_run.
      destruct (conditional_fetch_calls this inLink w1 (log ++ linkCalls outLink))
        as (callsI & HI & ->).
      destruct (match inLink with
                | Some l => if truthy_opt (ContentLink.uri l) then getContent this l
                            else mret (JObj ∅)
                | None => mret (JObj ∅)
                end (w1, log ++ linkCalls outLink)) as [[inputs|e] [w2 log2]] eqn:Hin;
        simpl in HI; subst log2; simpl;
        exists (linkCalls outLink ++ linkCalls inLink);
        (split_and!; [by rewrite app_assoc | done | rewrite length_app; lia
                     | by apply Forall_app]).
    + exists (linkCalls outLink). simpl.
      split_and!; [done | by apply prefix_app_r | lia | done].
Qed.

(** *** getHttpRequestByMethod and the body of runTrigger *)

Lemma toLowerCase_ascii_idemp (c : ascii) :
  toLowerCase_ascii (toLowerCase_ascii c) = toLowerCase_ascii c.
Proof. by destruct c as [[] [] [] [] [] [] [] []]. Qed.

Lemma toLowerCase_idemp (s : string) : toLowerCase (toLowerCase s) = toLowerCase s.
Proof.
  induction s as [|c s IH]; [done|]. simpl. by rewrite toLowerCase_ascii_idemp, IH.
Qed.

(** X17. The dispatch reads the method through its lower-casing only: two
    spellings of a supported method, and in particular a method and its
    lower-cased form, give the same call on the transport. *)
Theorem dispatch_case_insensitive (c : IHttpClient.t W) (method method' : string)
    (o : HttpRequestOptions.t) st :
  toLowerCase method = toLowerCase method' →
  is_Some (verb_of_method method) →
  getHttpRequestByMethod c method o st = getHttpRequestByMethod c method' o st ∧
  getHttpRequestByMethod c method o st = getHttpRequestByMethod c (toLowerCase method) o st.
Proof.
  intros Heq [v Hv].
  assert (verb_of_method method' = Some v) as Hv'.
  { unfold verb_of_method in *. by rewrite <- Heq. }
  assert (verb_of_method (toLowerCase method) = Some v) as Hl.
  { unfold verb_of_method in *. by rewrite toLowerCase_idemp. }
  by rewrite !(getHttpRequestByMethod_verb _ _ _ v).
Qed.

(** X18. In the body of runTrigger the dispatch is inside the [try]: with a URI
    resolved and a method that is not get, post or put, the
    UnsupportedException of getHttpRequestByMethod is caught and raised again
    as a plain Error whose message is "undefined undefined" (the exception has
    neither status nor data), without a call on the transport. *)
Theorem runTrigger_with_unsupported_method (resolve : CallbackInfo → Eff W (option string))
    this (callbackInfo : CallbackInfo) st (uri : string) :
  resolve callbackInfo st = (Returned (Some uri), st) →
  uri ≠ "" →
  verb_of_method (callbackMethod callbackInfo) = None →
  runTrigger_with platform resolve this callbackInfo st
  = (Raised (new_error Error "undefined undefined"), st).
Proof.
  intros Hr Hne Hv. unfold runTrigger_with. rewrite bind_run, Hr.
  apply truthy_string_ne in Hne. rewrite Hne. simpl.
  unfold try_catch. rewrite bind_run.
  by rewrite (getHttpRequestByMethod_unsupported _ _ _ Hv).
Qed.

(** X19. In the body of runTrigger a descriptor that is a plain callback URL is
    dispatched with POST: with a URI resolved, exactly one POST of that URI,
    without headers, is made, and when the transport answers, the answer is
    dropped and nothing is returned. *)
Theorem runTrigger_with_value_posts (resolve : CallbackInfo → Eff W (option string))
    this (value : string) w log (uri : string) :
  resolve (CallbackInfoWithValue value) (w, log) = (Returned (Some uri), (w, log)) →
  uri ≠ "" →
  let posted := IHttpClient.post (RunServiceOptions.httpClient (options this))
                  (triggerOptions uri) w in
  (runTrigger_with platform resolve this (CallbackInfoWithValue value) (w, log)).2
  = (posted.2, log ++ [{| call_verb := POST; call_options := triggerOptions uri |}]) ∧
  (∀ body, posted.1 = Returned body →
     (runTrigger_with platform resolve this (CallbackInfoWithValue value) (w, log)).1 = Returned ()).
Proof.
  intros Hr Hne posted. unfold runTrigger_with. rewrite bind_run, Hr.
  apply truthy_string_ne in Hne. rewrite Hne. simpl.
  unfold try_catch. rewrite bind_run.
  rewrite (getHttpRequestByMethod_verb _ _ _ POST) by done.
  change {| HttpRequestOptions.uri := uri; HttpRequestOptions.headers := None;
            HttpRequestOptions.noAuth := None |} with (triggerOptions uri).
  rewrite request_run. simpl. fold posted.
  by destruct posted as [[body|e] w1].
Qed.

End Links.

(* ===================================================================== *)
(** ** The further properties at concrete inputs *)
(* ===================================================================== *)

Lemma getContent_without_uri_witness :
  getContent (serviceFor pagedClient false) {| ContentLink.uri := Some "" |} (0, [])
    = (Raised (new_error Error ""), (0, [])) ∧
  getContent (serviceFor pagedClient false) {| ContentLink.uri := None |} (0, [])
    = (Raised (new_error Error ""), (0, [])).
Proof.
  split; apply getContent_without_uri; reflexivity.
Defined.

Lemma read_operations_single_get_witness :
  (getContent (serviceFor failingClient false) {| ContentLink.uri := Some "https://blob/in" |}
     (0, [])).2 = (1, [contentCall "https://blob/in"]) ∧
  (getRuns browser (serviceFor failingClient false) (0, [])).2
    = (1, [getCall "https://host/workflows/wf/runs?api-version=2018-11-01"
             (Some (HeadersObject [("Authorization", "token")]))]) ∧
  (getScopeRepetitions browser (serviceFor pagedClient false)
     {| Action.nodeId := "For_each"; Action.runId := Some "/runs/r1" |} None (0, [])).2
    = (1, [getCall ("https://host/runs/r1/actions/For_each/scopeRepetitions"
                    +:+ "?api-version=2018-11-01")
             (Some (HeadersObject [("Authorization", "token")]))]).
Proof.
  split; [|split].
  - destruct (read_operations_single_get browser (serviceFor failingClient false) 0 [])
      as (H & _).
    apply (H "https://blob/in"). discriminate.
  - destruct (read_operations_single_get browser (serviceFor failingClient false) 0 [])
      as (_ & _ & H & _).
    apply H. reflexivity.
  - destruct (read_operations_single_get browser (serviceFor pagedClient false) 0 [])
      as (_ & _ & _ & _ & H & _).
    apply (H {| Action.nodeId := "For_each"; Action.runId := Some "/runs/r1" |} None);
      reflexivity.
Defined.

Lemma read_operations_return_body_witness :
  getContent (serviceFor nullClient false) {| ContentLink.uri := Some "https://blob/in" |}
      (0, [])
    = (Returned JNull, (1, [contentCall "https://blob/in"])) ∧
  getRun (serviceFor nullClient false) "r1" (0, [])
    = (Returned JNull,
       (1, [getCall ("https://host/workflows/wf/runs/r1?api-version=2018-11-01"
                     +:+ "&$expand=properties/actions,workflow/properties") None])) ∧
  getScopeRepetitions browser (serviceFor nullClient false)
      {| Action.nodeId := "For_each"; Action.runId := Some "/runs/r1" |} None (0, [])
    = (Returned JNull,
       (1, [getCall ("https://host/runs/r1/actions/For_each/scopeRepetitions"
                     +:+ "?api-version=2018-11-01")
              (Some (HeadersObject [("Authorization", "token")]))])) ∧
  getRepetition browser (serviceFor nullClient false)
      {| Action.nodeId := "For_each"; Action.runId := Some "/runs/r1" |} "000001" (0, [])
    = (Returned JNull,
       (1, [getCall ("https://host/runs/r1/actions/For_each/repetitions/000001"
                     +:+ "?api-version=2018-11-01")
              (Some (HeadersObject [("Authorization", "token")]))])).
Proof.
  destruct (read_operations_return_body browser (serviceFor nullClient false) 0 [] JNull 1)
    as (Hcontent & Hrun & Hscope & Hrepetition).
  split; [|split; [|split]].
  - apply Hcontent; [discriminate | reflexivity].
  - apply Hrun. reflexivity.
  - apply Hscope; reflexivity.
  - apply Hrepetition; reflexivity.
Defined.

Lemma paged_operations_nullish_response_witness :
  getRuns browser (serviceFor nullClient false) (0, [])
    = (Raised (new_error Error "Cannot destructure"),
       (1, [getCall "https://host/workflows/wf/runs?api-version=2018-11-01"
              (Some (HeadersObject [("Authorization", "token")]))])) ∧
  getMoreRuns browser (serviceFor nullClient false) "https://host/runs?page=2" (0, [])
    = (Raised (new_error Error "Cannot destructure"),
       (1, [getCall "https://host/runs?page=2"
              (Some (HeadersObject [("Authorization", "token")]))])).
Proof.
  destruct (paged_operations_nullish_response browser (serviceFor nullClient false) 0 []
              JNull 1 eq_refl (or_introl eq_refl)) as (Hfirst & Hmore).
  split.
  - apply Hfirst. reflexivity.
  - apply Hmore. reflexivity.
Defined.

Lemma refused_token_stops_before_request_witness :
  ∃ token,
    Some brokenToken = Some token ∧
    token ≠ "" ∧
    fetch_header_value token = false ∧
    getRuns browser (serviceWithToken pagedClient (Some brokenToken)) (0, [])
      = (Raised (new_error TypeError "Invalid value"), (0, [])) ∧
    (∀ continuationToken,
       getMoreRuns browser (serviceWithToken pagedClient (Some brokenToken))
         continuationToken (0, [])
       = (Raised (new_error TypeError "Invalid value"), (0, []))) ∧
    (∀ action status,
       false = false →
       getScopeRepetitions browser (serviceWithToken pagedClient (Some brokenToken))
         action status (0, [])
       = (Raised (new_error TypeError "Invalid value"), (0, []))) ∧
    (∀ action repetitionId,
       getRepetition browser (serviceWithToken pagedClient (Some brokenToken))
         action repetitionId (0, [])
       = (Raised (new_error TypeError "Invalid value"), (0, []))).
Proof.
  apply (refused_token_stops_before_request browser
           (serviceWithToken pagedClient (Some brokenToken)) (0, [])).
  reflexivity.
Defined.

Lemma authorization_header_scope_witness :
  (HttpRequestOptions.headers ∘ call_options)
    <$> last (getScopeRepetitions browser (serviceFor pagedClient false)
                {| Action.nodeId := "For_each"; Action.runId := Some "/runs/r1" |}
                None (0, [])).2.2
    = Some (Some (HeadersObject [("Authorization", "token")])) ∧
  (HttpRequestOptions.headers ∘ call_options)
    <$> last (getRuns browser (serviceWithToken pagedClient (Some "")) (0, [])).2.2
    = Some None ∧
  (HttpRequestOptions.headers ∘ call_options)
    <$> last (getRun (serviceFor pagedClient false) "r1" (0, [])).2.2
    = Some None ∧
  (HttpRequestOptions.headers ∘ call_options)
    <$> last (getContent (serviceFor pagedClient false)
                {| ContentLink.uri := Some "https://blob/in" |} (0, [])).2.2
    = Some (Some (HeadersRecord [("Access-Control-Allow-Origin", "*")])).
Proof.
  destruct (authorization_header_scope browser (serviceFor pagedClient false) 0 [])
    as (Hsent & Hrun & Hcontent).
  destruct (Hsent eq_refl) as (_ & _ & Hscope & _).
  destruct (authorization_header_scope browser (serviceWithToken pagedClient (Some "")) 0 [])
    as (Hempty & _).
  destruct (Hempty eq_refl) as (Hruns & _).
  split; [|split; [|split]].
  - apply (Hscope {| Action.nodeId := "For_each"; Action.runId := Some "/runs/r1" |} None).
    reflexivity.
  - apply Hruns.
  - apply Hrun.
  - apply Hcontent. discriminate.
Defined.

Lemma service_raises_plain_errors_witness :
  raises_only_plain (getRuns browser (serviceFor failingClient false) (0, [])) ∧
  raises_only_plain
    (getRepetition browser (serviceFor failingClient false)
       {| Action.nodeId := "For_each"; Action.runId := Some "/runs/r1" |} "000001" (0, [])) ∧
  raises_only_plain
    (getActionLinks fixtures fixtures (serviceFor failingClient false)
       (Some {| ActionMetadata.inputsLink := None;
                ActionMetadata.outputsLink := Some {| ContentLink.uri := Some "https://blob/out" |} |})
       "Compose" (0, [])) ∧
  raises_only_plain
    (runTrigger browser (serviceFor failingClient false)
       (CallbackInfoWithValue "https://host/trigger") (0, [])).
Proof.
  destruct (service_raises_plain_errors browser fixtures fixtures
              (serviceFor failingClient false) (0, []))
    as (_ & _ & Hlinks & Htrigger & Hsent).
  destruct (Hsent eq_refl) as (Hruns & _ & _ & Hrepetition).
  split; [exact Hruns|]. split; [apply Hrepetition|]. split; [apply Hlinks | apply Htrigger].
Defined.

Lemma missing_runId_is_interpolated_witness :
  (getScopeRepetitions browser (serviceFor pagedClient false)
     {| Action.nodeId := "For_each"; Action.runId := None |} None (0, [])).2.2
    = [getCall ("https://hostundefined/actions/For_each/scopeRepetitions"
                +:+ "?api-version=2018-11-01")
         (Some (HeadersObject [("Authorization", "token")]))].
Proof.
  apply (missing_runId_is_interpolated browser (serviceFor pagedClient false) "For_each" None
           "" 0 [] eq_refl).
  reflexivity.
Defined.

Lemma parseActionLink_array_witness :
  ∃ result,
    parseActionLink (JArr [JStr "a"; JNum 7]) false = JObj result ∧
    result !! "0" = Some (boundParameter "0" (JStr "a")) ∧
    result !! "1" = Some (boundParameter "1" (JNum 7)) ∧
    result !! "2" = None ∧
    (is_Some (result !! "1") → ∃ i, "1" = pretty i ∧ i < 2).
Proof.
  destruct (parseActionLink_array [JStr "a"; JNum 7] false) as (result & H & Hi & Hk & _).
  exists result. split; [exact H|]. split; [exact (Hi 0)|]. split; [exact (Hi 1)|].
  split; [exact (Hi 2)|]. exact (Hk "1").
Defined.

Lemma parseActionLink_primitive_witness :
  parseActionLink (JNum 42) true = JObj ∅ ∧ parseActionLink (JBool true) false = JObj ∅.
Proof.
  split.
  - apply parseActionLink_primitive. left. exists 42%Z. split; [reflexivity | discriminate].
  - apply parseActionLink_primitive. right. reflexivity.
Defined.

Lemma parseActionLink_value_roundtrip_witness :
  js_get (js_get (parseActionLink (JObj {[ "a" := JNum 1; "b" := JNum 2 ]}) true) "a") "value"
    = JNum 1 ∧
  js_get (js_get (parseActionLink (JObj {[ "a" := JNum 1; "b" := JNum 2 ]}) true) "a")
    "displayName" = JStr "a" ∧
  js_get (js_get (parseActionLink (JStr "hello") false) "Outputs") "value" = JStr "hello" ∧
  js_get (js_get (parseActionLink (JStr "hello") false) "Outputs") "displayName"
    = JStr "Outputs".
Proof.
  destruct (parseActionLink_value_roundtrip (JObj {[ "a" := JNum 1; "b" := JNum 2 ]}) true "a"
              eq_refl) as (Ha & _).
  destruct (Ha eq_refl) as (Hvalue & Hname); [by eexists|].
  destruct (parseActionLink_value_roundtrip (JStr "hello") false "Outputs" eq_refl)
    as (_ & Hs).
  destruct (Hs eq_refl) as (Hsv & Hsn).
  split; [exact Hvalue|]. split; [exact Hname|]. split; [exact Hsv | exact Hsn].
Defined.

Lemma parseActionLink_twice_witness :
  parseActionLink (parseActionLink JNull true) false = JNull ∧
  ∃ result,
    parseActionLink (parseActionLink (JObj {[ "a" := JNum 1 ]}) true) false = JObj result ∧
    result !! "a" = Some (boundParameter "a" (boundParameter "a" (JNum 1))).
Proof.
  split.
  - apply (parseActionLink_twice JNull true false). reflexivity.
  - destruct (parseActionLink_twice (JObj {[ "a" := JNum 1 ]}) true false) as (_ & H).
    destruct (H eq_refl eq_refl) as (result & Hr & Hk).
    exists result. split; [exact Hr|]. rewrite Hk. reflexivity.
Defined.

Lemma getActionLinks_without_links_witness :
  getActionLinks fixtures fixtures (serviceFor failingClient false) None "Compose" (0, [])
    = (Returned (JObj {[ "inputs" := JObj ∅; "outputs" := JObj ∅ ]}), (0, [])) ∧
  getActionLinks fixtures fixtures (serviceFor failingClient false)
      (Some {| ActionMetadata.inputsLink := Some {| ContentLink.uri := Some "" |};
               ActionMetadata.outputsLink := Some {| ContentLink.uri := None |} |})
      "Compose" (0, [])
    = (Returned (JObj {[ "inputs" := JObj ∅; "outputs" := JObj ∅ ]}), (0, [])).
Proof.
  split; apply getActionLinks_without_links; reflexivity.
Defined.

Lemma getActionLinks_inputs_rejected_witness :
  getActionLinks fixtures fixtures (serviceFor flakyClient false)
      (Some {| ActionMetadata.inputsLink := Some {| ContentLink.uri := Some "https://blob/in" |};
               ActionMetadata.outputsLink := Some {| ContentLink.uri := Some "https://blob/out" |} |})
      "Compose" (0, [])
    = (Raised (new_error Error "Network Error"),
       (2, [contentCall "https://blob/out"; contentCall "https://blob/in"])).
Proof.
  apply (getActionLinks_inputs_rejected fixtures fixtures (serviceFor flakyClient false)
           _ "Compose" 0 [] (JStr "https://blob/out") 1 [contentCall "https://blob/out"]
           "https://blob/in" unavailable 2).
  - reflexivity.
  - by apply (fetches_get _ _ "https://blob/out").
  - reflexivity.
  - reflexivity.
Defined.

Lemma dispatch_case_insensitive_witness :
  getHttpRequestByMethod pagedClient "GET" (triggerOptions "https://host/a") (0, [])
    = getHttpRequestByMethod pagedClient "Get" (triggerOptions "https://host/a") (0, []) ∧
  getHttpRequestByMethod pagedClient "GET" (triggerOptions "https://host/a") (0, [])
    = getHttpRequestByMethod pagedClient "get" (triggerOptions "https://host/a") (0, []).
Proof.
  apply (dispatch_case_insensitive pagedClient "GET" "Get"); [reflexivity | by eexists].
Defined.

Lemma runTrigger_with_unsupported_method_witness :
  runTrigger_with browser descriptorUrl (serviceFor failingClient false)
      (CallbackInfoWithRelativePath "DELETE" "https://host/manual") (0, [])
    = (Raised (new_error Error "undefined undefined"), (0, [])).
Proof.
  apply (runTrigger_with_unsupported_method browser descriptorUrl
           (serviceFor failingClient false)
           (CallbackInfoWithRelativePath "DELETE" "https://host/manual") (0, [])
           "https://host/manual"); [reflexivity | discriminate | reflexivity].
Defined.

Lemma runTrigger_with_value_posts_witness :
  (runTrigger_with browser descriptorUrl (serviceFor pagedClient false)
     (CallbackInfoWithValue "https://host/trigger") (0, [])).2
    = (1, [{| call_verb := POST; call_options := triggerOptions "https://host/trigger" |}]) ∧
  (runTrigger_with browser descriptorUrl (serviceFor pagedClient false)
     (CallbackInfoWithValue "https://host/trigger") (0, [])).1 = Returned ().
Proof.
  destruct (runTrigger_with_value_posts browser descriptorUrl (serviceFor pagedClient false)
              "https://host/trigger" 0 [] "https://host/trigger" eq_refl)
    as (Hstate & Hvalue); [discriminate|].
  split; [exact Hstate|]. apply (Hvalue (JStr "https://host/trigger")). reflexivity.
Defined.

Lemma runTrigger_with_error_shaping_witness :
  runTrigger_with browser getCallbackUrl (serviceFor failingClient false)
      (CallbackInfoWithValue "https://host/trigger") (0, [])
    = (Raised (new_error Error "Function not implemented."), (0, [])) ∧
  runTrigger_with browser noUrl (serviceFor failingClient false)
      (CallbackInfoWithValue "https://host/trigger") (0, [])
    = (Raised (new_error Error ""), (0, [])) ∧
  runTrigger_with browser descriptorUrl (serviceFor failingClient false)
      (CallbackInfoWithValue "https://host/trigger") (0, [])
    = (Raised (new_error Error "503 Service Unavailable"),
       (1, [{| call_verb := POST; call_options := triggerOptions "https://host/trigger" |}])) ∧
  runTrigger_with browser descriptorUrl (serviceFor overloadedClient false)
      (CallbackInfoWithRelativePath "Put" "https://host/manual") (0, [])
    = (Raised (new_error Error "1e+21 undefined"),
       (1, [{| call_verb := PUT; call_options := triggerOptions "https://host/manual" |}])).
Proof.
  split; [|split; [|split]].
  - apply (runTrigger_with_error_shaping browser getCallbackUrl). reflexivity.
  - destruct (runTrigger_with_error_shaping browser noUrl (serviceFor failingClient false)
                (CallbackInfoWithValue "https://host/trigger") 0 []) as (_ & H & _).
    apply (H None); [reflexivity | left; reflexivity].
  - destruct (runTrigger_with_error_shaping browser descriptorUrl
                (serviceFor failingClient false)
                (CallbackInfoWithValue "https://host/trigger") 0 []) as (_ & _ & H).
    apply (H "https://host/trigger" POST unavailable 1);
      [reflexivity | discriminate | reflexivity | reflexivity].
  - destruct (runTrigger_with_error_shaping browser descriptorUrl
                (serviceFor overloadedClient false)
                (CallbackInfoWithRelativePath "Put" "https://host/manual") 0 [])
      as (_ & _ & H).
    apply (H "https://host/manual" PUT overloaded 1);
      [reflexivity | discriminate | reflexivity | reflexivity].
Defined.
